(** * CertificateManager: a shallow embedding of the certificate ledger

    The Solidity contract [CertificateManager] (ERC-1155, Ownable,
    ReentrancyGuard, Pausable) is modelled as a state/error monad over its
    storage.  A reverted call leaves the storage untouched (EVM semantics);
    value transfers are recorded in a log together with a snapshot of the
    replay guard and of the certificate store at the moment the transfer
    leg runs.  External contracts (CourseFactory, ProgressTracker,
    CourseLicense, receiving accounts) and the transaction context are
    the environment [Env] of a call.  Events are not modelled. *)

From Stdlib Require Import ZArith List Lia String.
From stdpp Require Import base gmap sets list strings.
Import ListNotations.

Local Open Scope Z_scope.

Definition UINT256_MAX : Z := 2 ^ 256 - 1.
Definition ether : Z := 10 ^ 18.

(** ** Data *)

Inductive Err : Type :=
| InvalidPaymentReceiptHash
| CertificateAlreadyExists
| NoCertificateExists
| CourseNotCompleted
| CourseAlreadyInCertificate
| InsufficientPayment
| InvalidStringLength (param : string) (maxLength : Z)
| InvalidAddress (addr : Z)
| CertificateNotFound (tokenId : Z)
| PaymentHashAlreadyUsed
| ZeroAmount
| EmptyCoursesArray
| NoLicenseOwnership
| ExceedsMaxPrice
| CreatorPriceNotSet
| RevertMsg (msg : string)
| Panic (code : Z)
| EnforcedPause
| ExpectedPause
| ReentrancyGuardReentrantCall
| OwnableUnauthorizedAccount (account : Z)
| OwnableInvalidOwner (owner : Z)
| ERC1155InvalidReceiver (receiver : Z)
| ERC1155InvalidSender (sender : Z)
| ERC1155InvalidOperator (operator : Z)
| ERC1155MissingApprovalForAll (operator owner : Z)
| ERC1155InsufficientBalance (sender balance needed tokenId : Z)
| ERC1155InvalidArrayLength (idsLength valuesLength : Z)
| StringsInsufficientHexLength (value length : Z)
| ExternalCallReverted.

Record Certificate : Type := mkCertificate {
  tokenId : Z;
  platformName : string;
  recipientName : string;
  recipientAddress : Z;
  lifetimeFlag : bool;
  isValid : bool;
  ipfsCID : string;
  baseRoute : string;
  issuedAt : Z;
  lastUpdated : Z;
  totalCoursesCompleted : Z;
  paymentReceiptHash : Z;
  completedCourses : list Z
}.

(** The value a Solidity mapping returns for an unwritten key. *)
Definition zeroCertificate : Certificate :=
  mkCertificate 0 "" "" 0 false false "" "" 0 0 0 0 [].

(** Transaction context and the external contracts the ledger reads. *)
Record Env : Type := mkEnv {
  msg_sender : Z;
  msg_value : Z;
  block_timestamp : Z;
  (** ProgressTracker.isCourseCompleted(student, courseId) *)
  isCourseCompleted : Z -> Z -> bool;
  (** CourseLicense.getLicense(student, courseId).courseId *)
  getLicenseCourseId : Z -> Z -> Z;
  (** CourseFactory.getCourse(courseId).creator; [None] when the call reverts *)
  getCourseCreator : Z -> option Z;
  (** CourseFactory.getCourseSections(courseId).length *)
  getCourseSectionsLength : Z -> Z;
  (** ProgressTracker.getSectionProgress(student, courseId, sectionId).completedAt *)
  getSectionCompletedAt : Z -> Z -> Z -> Z;
  (** whether [to.call{value: amount}("")] succeeds *)
  callSucceeds : Z -> Z -> bool;
  (** whether [to] accepts an ERC-1155 token (onERC1155Received) *)
  acceptsERC1155 : Z -> bool
}.

(** A value-transfer leg, with the replay guard, the certificate store,
    the user index and the course-membership index as a reentrant callee
    would observe them while the leg runs. *)
Inductive Ev : Type :=
| Transfer (to amount : Z) (used : gset Z) (certs : gmap Z Certificate)
    (users : gmap Z Z) (courseExists : gset (Z * Z)).

Record Config : Type := mkConfig {
  owner_ : Z;                       (* Ownable._owner *)
  paused_ : bool;                   (* Pausable._paused *)
  platformWallet : Z;
  defaultCertificateFee : Z;
  defaultCourseAdditionFee : Z;
  defaultPlatformName : string;
  defaultBaseRoute : string;
  defaultMetadataBaseURI : string
}.

Record St : Type := mkSt {
  cfg : Config;
  entered : bool;                   (* ReentrancyGuard._status == ENTERED *)
  nextTokenId : Z;
  certificates : gmap Z Certificate;
  userCertificates : gmap Z Z;
  usedPaymentHashes : gset Z;
  tokenURIs : gmap Z string;
  certificateCourseExists : gset (Z * Z);
  courseCertificatePrices : gmap Z Z;
  certificateCourseCompletionDate : gmap (Z * Z) Z;
  balances : gmap (Z * Z) Z;        (* ERC1155._balances[id][account] *)
  operatorApprovals : gset (Z * Z); (* ERC1155._operatorApprovals[owner][operator] *)
  trace : list Ev
}.

(** Field updates (Solidity assignments to one storage variable). *)
Definition set_cfg (f : Config -> Config) (s : St) : St :=
  mkSt (f (cfg s)) (entered s) (nextTokenId s) (certificates s) (userCertificates s)
    (usedPaymentHashes s) (tokenURIs s) (certificateCourseExists s)
    (courseCertificatePrices s) (certificateCourseCompletionDate s) (balances s)
    (operatorApprovals s) (trace s).
Definition set_entered (b : bool) (s : St) : St :=
  mkSt (cfg s) b (nextTokenId s) (certificates s) (userCertificates s)
    (usedPaymentHashes s) (tokenURIs s) (certificateCourseExists s)
    (courseCertificatePrices s) (certificateCourseCompletionDate s) (balances s)
    (operatorApprovals s) (trace s).
Definition set_nextTokenId (n : Z) (s : St) : St :=
  mkSt (cfg s) (entered s) n (certificates s) (userCertificates s)
    (usedPaymentHashes s) (tokenURIs s) (certificateCourseExists s)
    (courseCertificatePrices s) (certificateCourseCompletionDate s) (balances s)
    (operatorApprovals s) (trace s).
Definition set_certificates (f : gmap Z Certificate -> gmap Z Certificate) (s : St) : St :=
  mkSt (cfg s) (entered s) (nextTokenId s) (f (certificates s)) (userCertificates s)
    (usedPaymentHashes s) (tokenURIs s) (certificateCourseExists s)
    (courseCertificatePrices s) (certificateCourseCompletionDate s) (balances s)
    (operatorApprovals s) (trace s).
Definition set_userCertificates (f : gmap Z Z -> gmap Z Z) (s : St) : St :=
  mkSt (cfg s) (entered s) (nextTokenId s) (certificates s) (f (userCertificates s))
    (usedPaymentHashes s) (tokenURIs s) (certificateCourseExists s)
    (courseCertificatePrices s) (certificateCourseCompletionDate s) (balances s)
    (operatorApprovals s) (trace s).
Definition set_usedPaymentHashes (f : gset Z -> gset Z) (s : St) : St :=
  mkSt (cfg s) (entered s) (nextTokenId s) (certificates s) (userCertificates s)
    (f (usedPaymentHashes s)) (tokenURIs s) (certificateCourseExists s)
    (courseCertificatePrices s) (certificateCourseCompletionDate s) (balances s)
    (operatorApprovals s) (trace s).
Definition set_tokenURIs (f : gmap Z string -> gmap Z string) (s : St) : St :=
  mkSt (cfg s) (entered s) (nextTokenId s) (certificates s) (userCertificates s)
    (usedPaymentHashes s) (f (tokenURIs s)) (certificateCourseExists s)
    (courseCertificatePrices s) (certificateCourseCompletionDate s) (balances s)
    (operatorApprovals s) (trace s).
Definition set_certificateCourseExists (f : gset (Z * Z) -> gset (Z * Z)) (s : St) : St :=
  mkSt (cfg s) (entered s) (nextTokenId s) (certificates s) (userCertificates s)
    (usedPaymentHashes s) (tokenURIs s) (f (certificateCourseExists s))
    (courseCertificatePrices s) (certificateCourseCompletionDate s) (balances s)
    (operatorApprovals s) (trace s).
Definition set_courseCertificatePrices (f : gmap Z Z -> gmap Z Z) (s : St) : St :=
  mkSt (cfg s) (entered s) (nextTokenId s) (certificates s) (userCertificates s)
    (usedPaymentHashes s) (tokenURIs s) (certificateCourseExists s)
    (f (courseCertificatePrices s)) (certificateCourseCompletionDate s) (balances s)
    (operatorApprovals s) (trace s).
Definition set_certificateCourseCompletionDate (f : gmap (Z * Z) Z -> gmap (Z * Z) Z) (s : St) : St :=
  mkSt (cfg s) (entered s) (nextTokenId s) (certificates s) (userCertificates s)
    (usedPaymentHashes s) (tokenURIs s) (certificateCourseExists s)
    (courseCertificatePrices s) (f (certificateCourseCompletionDate s)) (balances s)
    (operatorApprovals s) (trace s).
Definition set_balances (f : gmap (Z * Z) Z -> gmap (Z * Z) Z) (s : St) : St :=
  mkSt (cfg s) (entered s) (nextTokenId s) (certificates s) (userCertificates s)
    (usedPaymentHashes s) (tokenURIs s) (certificateCourseExists s)
    (courseCertificatePrices s) (certificateCourseCompletionDate s) (f (balances s))
    (operatorApprovals s) (trace s).
Definition set_operatorApprovals (f : gset (Z * Z) -> gset (Z * Z)) (s : St) : St :=
  mkSt (cfg s) (entered s) (nextTokenId s) (certificates s) (userCertificates s)
    (usedPaymentHashes s) (tokenURIs s) (certificateCourseExists s)
    (courseCertificatePrices s) (certificateCourseCompletionDate s) (balances s)
    (f (operatorApprovals s)) (trace s).
Definition set_trace (f : list Ev -> list Ev) (s : St) : St :=
  mkSt (cfg s) (entered s) (nextTokenId s) (certificates s) (userCertificates s)
    (usedPaymentHashes s) (tokenURIs s) (certificateCourseExists s)
    (courseCertificatePrices s) (certificateCourseCompletionDate s) (balances s)
    (operatorApprovals s) (f (trace s)).

Definition set_owner_ (a : Z) (c : Config) : Config :=
  mkConfig a (paused_ c) (platformWallet c) (defaultCertificateFee c)
    (defaultCourseAdditionFee c) (defaultPlatformName c) (defaultBaseRoute c)
    (defaultMetadataBaseURI c).
Definition set_paused_ (b : bool) (c : Config) : Config :=
  mkConfig (owner_ c) b (platformWallet c) (defaultCertificateFee c)
    (defaultCourseAdditionFee c) (defaultPlatformName c) (defaultBaseRoute c)
    (defaultMetadataBaseURI c).
Definition set_platformWallet (a : Z) (c : Config) : Config :=
  mkConfig (owner_ c) (paused_ c) a (defaultCertificateFee c)
    (defaultCourseAdditionFee c) (defaultPlatformName c) (defaultBaseRoute c)
    (defaultMetadataBaseURI c).
Definition set_defaultCertificateFee (v : Z) (c : Config) : Config :=
  mkConfig (owner_ c) (paused_ c) (platformWallet c) v
    (defaultCourseAdditionFee c) (defaultPlatformName c) (defaultBaseRoute c)
    (defaultMetadataBaseURI c).
Definition set_defaultCourseAdditionFee (v : Z) (c : Config) : Config :=
  mkConfig (owner_ c) (paused_ c) (platformWallet c) (defaultCertificateFee c)
    v (defaultPlatformName c) (defaultBaseRoute c) (defaultMetadataBaseURI c).
Definition set_defaultPlatformName (v : string) (c : Config) : Config :=
  mkConfig (owner_ c) (paused_ c) (platformWallet c) (defaultCertificateFee c)
    (defaultCourseAdditionFee c) v (defaultBaseRoute c) (defaultMetadataBaseURI c).
Definition set_defaultBaseRoute (v : string) (c : Config) : Config :=
  mkConfig (owner_ c) (paused_ c) (platformWallet c) (defaultCertificateFee c)
    (defaultCourseAdditionFee c) (defaultPlatformName c) v (defaultMetadataBaseURI c).
Definition set_defaultMetadataBaseURI (v : string) (c : Config) : Config :=
  mkConfig (owner_ c) (paused_ c) (platformWallet c) (defaultCertificateFee c)
    (defaultCourseAdditionFee c) (defaultPlatformName c) (defaultBaseRoute c) v.

(** Assignments through a [Certificate storage cert] reference. *)
Definition cert_push (courseId : Z) (c : Certificate) : Certificate :=
  mkCertificate (tokenId c) (platformName c) (recipientName c) (recipientAddress c)
    (lifetimeFlag c) (isValid c) (ipfsCID c) (baseRoute c) (issuedAt c)
    (lastUpdated c) (totalCoursesCompleted c) (paymentReceiptHash c)
    (completedCourses c ++ [courseId]).
Definition cert_set_total (n : Z) (c : Certificate) : Certificate :=
  mkCertificate (tokenId c) (platformName c) (recipientName c) (recipientAddress c)
    (lifetimeFlag c) (isValid c) (ipfsCID c) (baseRoute c) (issuedAt c)
    (lastUpdated c) n (paymentReceiptHash c) (completedCourses c).
Definition cert_set_lastUpdated (t : Z) (c : Certificate) : Certificate :=
  mkCertificate (tokenId c) (platformName c) (recipientName c) (recipientAddress c)
    (lifetimeFlag c) (isValid c) (ipfsCID c) (baseRoute c) (issuedAt c)
    t (totalCoursesCompleted c) (paymentReceiptHash c) (completedCourses c).
Definition cert_set_ipfsCID (v : string) (c : Certificate) : Certificate :=
  mkCertificate (tokenId c) (platformName c) (recipientName c) (recipientAddress c)
    (lifetimeFlag c) (isValid c) v (baseRoute c) (issuedAt c)
    (lastUpdated c) (totalCoursesCompleted c) (paymentReceiptHash c) (completedCourses c).
Definition cert_set_paymentReceiptHash (h : Z) (c : Certificate) : Certificate :=
  mkCertificate (tokenId c) (platformName c) (recipientName c) (recipientAddress c)
    (lifetimeFlag c) (isValid c) (ipfsCID c) (baseRoute c) (issuedAt c)
    (lastUpdated c) (totalCoursesCompleted c) h (completedCourses c).
Definition cert_set_isValid (b : bool) (c : Certificate) : Certificate :=
  mkCertificate (tokenId c) (platformName c) (recipientName c) (recipientAddress c)
    (lifetimeFlag c) b (ipfsCID c) (baseRoute c) (issuedAt c)
    (lastUpdated c) (totalCoursesCompleted c) (paymentReceiptHash c) (completedCourses c).
Definition cert_set_baseRoute (v : string) (c : Certificate) : Certificate :=
  mkCertificate (tokenId c) (platformName c) (recipientName c) (recipientAddress c)
    (lifetimeFlag c) (isValid c) (ipfsCID c) v (issuedAt c)
    (lastUpdated c) (totalCoursesCompleted c) (paymentReceiptHash c) (completedCourses c).

(** Mapping reads with Solidity's zero default. *)
Definition cert_at (s : St) (t : Z) : Certificate :=
  default zeroCertificate (certificates s !! t).
Definition userCert (s : St) (u : Z) : Z := default 0 (userCertificates s !! u).
Definition balanceOf (s : St) (account id : Z) : Z := default 0 (balances s !! (id, account)).

(** [certificates[t].field = ...] through a storage reference. *)
Definition update_cert (t : Z) (f : Certificate -> Certificate) (s : St) : St :=
  set_certificates (<[t := f (cert_at s t)]>) s.

(** ** The execution monad: reader on [Env], state on [St], revert on [Err] *)

Inductive result (A : Type) : Type :=
| Ok (a : A) (s : St)
| Revert (e : Err).
Arguments Ok {A} a s.
Arguments Revert {A} e.

Definition M (A : Type) : Type := Env -> St -> result A.

Global Instance M_ret : MRet M := fun A a _ s => Ok a s.
Global Instance M_bind : MBind M := fun A B k m env s =>
  match m env s with
  | Ok a s' => k a env s'
  | Revert e => Revert e
  end.

Definition revert {A} (e : Err) : M A := fun _ _ => Revert e.
Definition get : M St := fun _ s => Ok s s.
Definition ask : M Env := fun env s => Ok env s.
Definition modify (f : St -> St) : M unit := fun _ s => Ok tt (f s).

(** [if (cond) revert e;] *)
Definition revert_if (cond : bool) (e : Err) : M unit :=
  if cond then revert e else mret tt.

(** [require(cond, msg);] *)
Definition require (cond : bool) (msg : string) : M unit :=
  if cond then mret tt else revert (RevertMsg msg).

(** Checked uint256 arithmetic (Solidity >= 0.8 panics with code 0x11). *)
Definition checked_add (a b : Z) : M Z :=
  if a + b <=? UINT256_MAX then mret (a + b) else revert (Panic 17).
Definition checked_sub (a b : Z) : M Z :=
  if b <=? a then mret (a - b) else revert (Panic 17).
Definition checked_mul (a b : Z) : M Z :=
  if a * b <=? UINT256_MAX then mret (a * b) else revert (Panic 17).
(** [unchecked { x += y; }] *)
Definition wrap256 (x : Z) : Z := x mod 2 ^ 256.

(** [to.call{value: amount}("")]: records the leg and reports success. *)
Definition call_value (to amount : Z) : M bool :=
  env ← ask;
  s ← get;
  if callSucceeds env to amount then
    modify (set_trace (fun tr => tr ++ [Transfer to amount (usedPaymentHashes s)
               (certificates s) (userCertificates s) (certificateCourseExists s)]));;
    mret true
  else mret false.

(** ** Modifiers *)

Definition nonReentrant {A} (body : M A) : M A :=
  s ← get;
  revert_if (entered s) ReentrancyGuardReentrantCall;;
  modify (set_entered true);;
  r ← body;
  modify (set_entered false);;
  mret r.

Definition whenNotPaused : M unit :=
  s ← get; revert_if (paused_ (cfg s)) EnforcedPause.

Definition whenPaused : M unit :=
  s ← get; revert_if (negb (paused_ (cfg s))) ExpectedPause.

Definition onlyOwner : M unit :=
  env ← ask; s ← get;
  revert_if (negb (owner_ (cfg s) =? msg_sender env))
    (OwnableUnauthorizedAccount (msg_sender env)).

Definition validStringLength (str : string) (maxLength : Z) (paramName : string) : M unit :=
  let len := Z.of_nat (String.length str) in
  revert_if ((len =? 0) || (maxLength <? len)) (InvalidStringLength paramName maxLength).

(** [courseFactory.getCourse(courseId).creator] *)
Definition getCourseCreator_ (courseId : Z) : M Z :=
  env ← ask;
  match getCourseCreator env courseId with
  | Some c => mret c
  | None => revert ExternalCallReverted
  end.

(** ** ERC-1155 core (OpenZeppelin 5) and the soulbound override *)

(** ERC1155._update: balance bookkeeping for each (id, value) pair. *)
Fixpoint erc1155_move (from to : Z) (ids values : list Z) : M unit :=
  match ids, values with
  | id :: ids', value :: values' =>
      (if negb (from =? 0) then
         s ← get;
         let fromBalance := balanceOf s from id in
         revert_if (fromBalance <? value)
           (ERC1155InsufficientBalance from fromBalance value id);;
         modify (set_balances (<[(id, from) := fromBalance - value]>))
       else mret tt);;
      (if negb (to =? 0) then
         s ← get;
         b ← checked_add (balanceOf s to id) value;
         modify (set_balances (<[(id, to) := b]>))
       else mret tt);;
      erc1155_move from to ids' values'
  | _, _ => mret tt
  end.

Definition erc1155_update (from to : Z) (ids values : list Z) : M unit :=
  revert_if (negb (length ids =? length values)%nat)
    (ERC1155InvalidArrayLength (Z.of_nat (length ids)) (Z.of_nat (length values)));;
  erc1155_move from to ids values.

(** CertificateManager._update: soulbound behaviour. *)
Definition _update (from to : Z) (ids values : list Z) : M unit :=
  if negb (from =? 0) && negb (to =? 0) then
    revert (RevertMsg "Certificates are soulbound")
  else erc1155_update from to ids values.

(** ERC1155._updateWithAcceptanceCheck *)
Definition _updateWithAcceptanceCheck (from to : Z) (ids values : list Z) : M unit :=
  _update from to ids values;;
  env ← ask;
  revert_if (negb (to =? 0) && negb (acceptsERC1155 env to)) (ERC1155InvalidReceiver to).

Definition _mint (to id value : Z) : M unit :=
  revert_if (to =? 0) (ERC1155InvalidReceiver 0);;
  _updateWithAcceptanceCheck 0 to [id] [value].

Definition isApprovedForAll (s : St) (account operator : Z) : bool :=
  bool_decide ((account, operator) ∈ operatorApprovals s).

Definition safeTransferFrom (from to id value : Z) : M unit :=
  env ← ask; s ← get;
  let sender := msg_sender env in
  revert_if (negb (from =? sender) && negb (isApprovedForAll s from sender))
    (ERC1155MissingApprovalForAll sender from);;
  revert_if (to =? 0) (ERC1155InvalidReceiver 0);;
  revert_if (from =? 0) (ERC1155InvalidSender 0);;
  _updateWithAcceptanceCheck from to [id] [value].

Definition safeBatchTransferFrom (from to : Z) (ids values : list Z) : M unit :=
  env ← ask; s ← get;
  let sender := msg_sender env in
  revert_if (negb (from =? sender) && negb (isApprovedForAll s from sender))
    (ERC1155MissingApprovalForAll sender from);;
  revert_if (to =? 0) (ERC1155InvalidReceiver 0);;
  revert_if (from =? 0) (ERC1155InvalidSender 0);;
  _updateWithAcceptanceCheck from to ids values.

Definition setApprovalForAll (operator : Z) (approved : bool) : M unit :=
  env ← ask;
  revert_if (operator =? 0) (ERC1155InvalidOperator 0);;
  modify (set_operatorApprovals (fun a =>
    if approved then {[(msg_sender env, operator)]} ∪ a
    else a ∖ {[(msg_sender env, operator)]})).

(** ** CertificateManager internals *)

Definition _exists (s : St) (t : Z) : bool := (0 <? t) && (t <? nextTokenId s).

Definition _getCertificatePrice (courseId : Z) : M Z :=
  s ← get;
  let creatorPrice := default 0 (courseCertificatePrices s !! courseId) in
  if 0 <? creatorPrice then mret creatorPrice
  else mret (defaultCertificateFee (cfg s)).

(** 10% platform, 90% recipient, refund of the excess. *)
Definition _processCertificatePayment (recipient totalAmount : Z) : M unit :=
  env ← ask; s ← get;
  x ← checked_mul totalAmount 1000;
  let platformFee := x / 10000 in
  creatorFee ← checked_sub totalAmount platformFee;
  (if 0 <? platformFee then
     success ← call_value (platformWallet (cfg s)) platformFee;
     require success "Platform fee transfer failed"
   else mret tt);;
  (if 0 <? creatorFee then
     success ← call_value recipient creatorFee;
     require success "Creator payment failed"
   else mret tt);;
  (if totalAmount <? msg_value env then
     refund ← checked_sub (msg_value env) totalAmount;
     success ← call_value (msg_sender env) refund;
     require success "Refund failed"
   else mret tt).

(** 2% platform, 98% recipient, refund of the excess. *)
Definition _processPayment (recipient totalAmount : Z) : M unit :=
  env ← ask; s ← get;
  x ← checked_mul totalAmount 200;
  let platformFee := x / 10000 in
  recipientFee ← checked_sub totalAmount platformFee;
  (if 0 <? platformFee then
     success ← call_value (platformWallet (cfg s)) platformFee;
     require success "Platform fee transfer failed"
   else mret tt);;
  (if 0 <? recipientFee then
     success ← call_value recipient recipientFee;
     require success "Recipient payment failed"
   else mret tt);;
  (if totalAmount <? msg_value env then
     refund ← checked_sub (msg_value env) totalAmount;
     success ← call_value (msg_sender env) refund;
     require success "Refund failed"
   else mret tt).

Definition _mintFirstCertificate (courseId : Z) (recipientName ipfsCID : string)
    (paymentReceiptHash : Z) (baseRoute : string) : M unit :=
  validStringLength recipientName 100 "recipientName";;
  env ← ask; s ← get;
  revert_if (negb (userCert s (msg_sender env) =? 0)) CertificateAlreadyExists;;
  certificatePrice ← _getCertificatePrice courseId;
  revert_if (msg_value env <? certificatePrice) InsufficientPayment;;
  (* uint256 tokenId = _nextTokenId++; *)
  s ← get;
  let tokenId := nextTokenId s in
  n ← checked_add tokenId 1;
  modify (set_nextTokenId n);;
  modify (set_usedPaymentHashes (union {[paymentReceiptHash]}));;
  s ← get;
  modify (set_certificates (<[tokenId := {|
      tokenId := tokenId;
      platformName := defaultPlatformName (cfg s);
      recipientName := recipientName;
      recipientAddress := msg_sender env;
      lifetimeFlag := true;
      isValid := true;
      ipfsCID := ipfsCID;
      baseRoute := baseRoute;
      issuedAt := block_timestamp env;
      lastUpdated := block_timestamp env;
      totalCoursesCompleted := 1;
      paymentReceiptHash := paymentReceiptHash;
      completedCourses := [courseId] |}]>));;
  modify (set_userCertificates (<[msg_sender env := tokenId]>));;
  modify (set_certificateCourseExists (union {[(tokenId, courseId)]}));;
  _mint (msg_sender env) tokenId 1;;
  creator ← getCourseCreator_ courseId;
  _processCertificatePayment creator certificatePrice.

Definition _addCourseToExistingCertificate (tokenId courseId : Z) (ipfsCID : string)
    (paymentReceiptHash : Z) : M unit :=
  additionPrice ← _getCertificatePrice courseId;
  env ← ask;
  revert_if (msg_value env <? additionPrice) InsufficientPayment;;
  s ← get;
  let cert := cert_at s tokenId in
  revert_if (negb (recipientAddress cert =? msg_sender env)) (CertificateNotFound tokenId);;
  revert_if (negb (isValid cert)) (CertificateNotFound tokenId);;
  revert_if (bool_decide ((tokenId, courseId) ∈ certificateCourseExists s))
    CourseAlreadyInCertificate;;
  modify (set_usedPaymentHashes (union {[paymentReceiptHash]}));;
  modify (update_cert tokenId (cert_push courseId));;
  modify (update_cert tokenId (fun c => cert_set_total (wrap256 (totalCoursesCompleted c + 1)) c));;
  modify (update_cert tokenId (cert_set_lastUpdated (block_timestamp env)));;
  modify (update_cert tokenId (cert_set_ipfsCID ipfsCID));;
  modify (update_cert tokenId (cert_set_paymentReceiptHash paymentReceiptHash));;
  modify (set_certificateCourseExists (union {[(tokenId, courseId)]}));;
  (let sections := getCourseSectionsLength env courseId in
   if 0 <? sections then
     modify (set_certificateCourseCompletionDate (<[(tokenId, courseId) :=
       getSectionCompletedAt env (msg_sender env) courseId (sections - 1)]>))
   else mret tt);;
  creator ← getCourseCreator_ courseId;
  _processPayment creator additionPrice.

Definition mintOrUpdateCertificate (courseId : Z) (recipientName ipfsCID : string)
    (paymentReceiptHash : Z) (baseRoute : string) : M unit :=
  nonReentrant (
    whenNotPaused;;
    validStringLength ipfsCID 2000 "ipfsCID";;
    revert_if (paymentReceiptHash =? 0) InvalidPaymentReceiptHash;;
    s ← get;
    revert_if (bool_decide (paymentReceiptHash ∈ usedPaymentHashes s)) PaymentHashAlreadyUsed;;
    env ← ask;
    revert_if (negb (isCourseCompleted env (msg_sender env) courseId)) CourseNotCompleted;;
    revert_if (getLicenseCourseId env (msg_sender env) courseId =? 0) NoLicenseOwnership;;
    let existingTokenId := userCert s (msg_sender env) in
    if existingTokenId =? 0 then
      _mintFirstCertificate courseId recipientName ipfsCID paymentReceiptHash baseRoute
    else
      _addCourseToExistingCertificate existingTokenId courseId ipfsCID paymentReceiptHash).

Definition updateCertificate (tokenId : Z) (newIpfsCID : string) (paymentReceiptHash : Z)
    : M unit :=
  nonReentrant (
    whenNotPaused;;
    validStringLength newIpfsCID 2000 "newIpfsCID";;
    revert_if (paymentReceiptHash =? 0) InvalidPaymentReceiptHash;;
    s ← get;
    revert_if (bool_decide (paymentReceiptHash ∈ usedPaymentHashes s)) PaymentHashAlreadyUsed;;
    revert_if (negb (_exists s tokenId)) (CertificateNotFound tokenId);;
    env ← ask;
    revert_if (msg_value env <? defaultCourseAdditionFee (cfg s)) InsufficientPayment;;
    let cert := cert_at s tokenId in
    revert_if (negb (isValid cert)) (CertificateNotFound tokenId);;
    require (recipientAddress cert =? msg_sender env) "Only certificate owner can update";;
    modify (set_usedPaymentHashes (union {[paymentReceiptHash]}));;
    modify (update_cert tokenId (cert_set_ipfsCID newIpfsCID));;
    modify (update_cert tokenId (cert_set_paymentReceiptHash paymentReceiptHash));;
    modify (update_cert tokenId (cert_set_lastUpdated (block_timestamp env)));;
    s ← get;
    _processCertificatePayment (platformWallet (cfg s)) (defaultCourseAdditionFee (cfg s))).

(** First loop of addMultipleCoursesToCertificate: validation only. *)
Fixpoint validateCourses (tokenId : Z) (courseIds : list Z) : M unit :=
  match courseIds with
  | [] => mret tt
  | courseId :: rest =>
      env ← ask; s ← get;
      revert_if (negb (isCourseCompleted env (msg_sender env) courseId)) CourseNotCompleted;;
      revert_if (bool_decide ((tokenId, courseId) ∈ certificateCourseExists s))
        CourseAlreadyInCertificate;;
      validateCourses tokenId rest
  end.

(** Second loop of addMultipleCoursesToCertificate: the appends. *)
Fixpoint addCourses (tokenId : Z) (courseIds : list Z) : M unit :=
  match courseIds with
  | [] => mret tt
  | courseId :: rest =>
      modify (update_cert tokenId (cert_push courseId));;
      modify (set_certificateCourseExists (union {[(tokenId, courseId)]}));;
      addCourses tokenId rest
  end.

Definition addMultipleCoursesToCertificate (courseIds : list Z) (ipfsCID : string)
    (paymentReceiptHash : Z) : M unit :=
  nonReentrant (
    whenNotPaused;;
    validStringLength ipfsCID 2000 "ipfsCID";;
    revert_if (length courseIds =? 0)%nat EmptyCoursesArray;;
    revert_if (paymentReceiptHash =? 0) InvalidPaymentReceiptHash;;
    s ← get;
    revert_if (bool_decide (paymentReceiptHash ∈ usedPaymentHashes s)) PaymentHashAlreadyUsed;;
    env ← ask;
    let tokenId := userCert s (msg_sender env) in
    revert_if (tokenId =? 0) NoCertificateExists;;
    revert_if (negb (isValid (cert_at s tokenId))) (CertificateNotFound tokenId);;
    let perCourseFee := defaultCourseAdditionFee (cfg s) in
    totalFee ← checked_mul perCourseFee (Z.of_nat (length courseIds));
    revert_if (msg_value env <? totalFee) InsufficientPayment;;
    validateCourses tokenId courseIds;;
    modify (set_usedPaymentHashes (union {[paymentReceiptHash]}));;
    addCourses tokenId courseIds;;
    modify (update_cert tokenId (fun c =>
      cert_set_total (wrap256 (totalCoursesCompleted c + Z.of_nat (length courseIds))) c));;
    modify (update_cert tokenId (cert_set_lastUpdated (block_timestamp env)));;
    modify (update_cert tokenId (cert_set_ipfsCID ipfsCID));;
    modify (update_cert tokenId (cert_set_paymentReceiptHash paymentReceiptHash));;
    s ← get;
    _processCertificatePayment (platformWallet (cfg s)) totalFee).

(** ** Admin and configuration functions *)

Definition MAX_CERTIFICATE_PRICE : Z := 2 * 10 ^ 15.  (* 0.002 ether *)

Definition setDefaultCertificateFee (newFee : Z) : M unit :=
  onlyOwner;;
  revert_if (newFee =? 0) ZeroAmount;;
  revert_if (MAX_CERTIFICATE_PRICE <? newFee) ExceedsMaxPrice;;
  modify (set_cfg (set_defaultCertificateFee newFee)).

Definition setDefaultCourseAdditionFee (newFee : Z) : M unit :=
  onlyOwner;;
  revert_if (newFee =? 0) ZeroAmount;;
  revert_if (MAX_CERTIFICATE_PRICE <? newFee) ExceedsMaxPrice;;
  modify (set_cfg (set_defaultCourseAdditionFee newFee)).

Definition setPlatformWallet (newWallet : Z) : M unit :=
  onlyOwner;;
  revert_if (newWallet =? 0) (InvalidAddress newWallet);;
  modify (set_cfg (set_platformWallet newWallet)).

Definition setDefaultPlatformName (newPlatformName : string) : M unit :=
  onlyOwner;;
  let len := Z.of_nat (String.length newPlatformName) in
  revert_if ((len =? 0) || (100 <? len)) (InvalidStringLength "platformName" 100);;
  modify (set_cfg (set_defaultPlatformName newPlatformName)).

Definition setCourseCertificatePrice (courseId price : Z) : M unit :=
  revert_if (price =? 0) ZeroAmount;;
  revert_if (MAX_CERTIFICATE_PRICE <? price) ExceedsMaxPrice;;
  creator ← getCourseCreator_ courseId;
  env ← ask;
  require (creator =? msg_sender env) "Only course creator can set price";;
  modify (set_courseCertificatePrices (<[courseId := price]>)).

Definition setTokenURI (tokenId : Z) (tokenURI : string) : M unit :=
  onlyOwner;;
  s ← get;
  revert_if (negb (_exists s tokenId)) (CertificateNotFound tokenId);;
  modify (set_tokenURIs (<[tokenId := tokenURI]>)).

Definition updateBaseRoute (tokenId : Z) (newBaseRoute : string) : M unit :=
  onlyOwner;;
  validStringLength newBaseRoute 200 "baseRoute";;
  s ← get;
  revert_if (negb (_exists s tokenId)) (CertificateNotFound tokenId);;
  env ← ask;
  modify (update_cert tokenId (cert_set_baseRoute newBaseRoute));;
  modify (update_cert tokenId (cert_set_lastUpdated (block_timestamp env))).

Definition updateDefaultBaseRoute (newBaseRoute : string) : M unit :=
  onlyOwner;;
  validStringLength newBaseRoute 200 "baseRoute";;
  modify (set_cfg (set_defaultBaseRoute newBaseRoute)).

Definition updateDefaultMetadataBaseURI (newBaseURI : string) : M unit :=
  onlyOwner;;
  modify (set_cfg (set_defaultMetadataBaseURI newBaseURI)).

Fixpoint batchUpdateBaseRouteLoop (tokenIds : list Z) (newBaseRoute : string) : M unit :=
  match tokenIds with
  | [] => mret tt
  | tokenId :: rest =>
      s ← get; env ← ask;
      (if _exists s tokenId then
         modify (update_cert tokenId (cert_set_baseRoute newBaseRoute));;
         modify (update_cert tokenId (cert_set_lastUpdated (block_timestamp env)))
       else mret tt);;
      batchUpdateBaseRouteLoop rest newBaseRoute
  end.

Definition batchUpdateBaseRoute (tokenIds : list Z) (newBaseRoute : string) : M unit :=
  onlyOwner;;
  validStringLength newBaseRoute 200 "baseRoute";;
  revert_if (length tokenIds =? 0)%nat EmptyCoursesArray;;
  batchUpdateBaseRouteLoop tokenIds newBaseRoute.

Definition revokeCertificate (tokenId : Z) (reason : string) : M unit :=
  onlyOwner;;
  s ← get;
  revert_if (negb (_exists s tokenId)) (CertificateNotFound tokenId);;
  modify (update_cert tokenId (cert_set_isValid false)).

Definition pause : M unit :=
  onlyOwner;; whenNotPaused;; modify (set_cfg (set_paused_ true)).

Definition unpause : M unit :=
  onlyOwner;; whenPaused;; modify (set_cfg (set_paused_ false)).

(** Ownable *)
Definition transferOwnership (newOwner : Z) : M unit :=
  onlyOwner;;
  revert_if (newOwner =? 0) (OwnableInvalidOwner 0);;
  modify (set_cfg (set_owner_ newOwner)).

Definition renounceOwnership : M unit :=
  onlyOwner;; modify (set_cfg (set_owner_ 0)).


(** ** View functions *)

Definition getCertificate (tokenId : Z) : M Certificate :=
  s ← get;
  revert_if (negb (_exists s tokenId)) (CertificateNotFound tokenId);;
  mret (cert_at s tokenId).

Definition getCertificateCompletedCourses (tokenId : Z) : M (list Z) :=
  s ← get;
  revert_if (negb (_exists s tokenId)) (CertificateNotFound tokenId);;
  mret (completedCourses (cert_at s tokenId)).

Definition isCourseInCertificate (tokenId courseId : Z) : M bool :=
  s ← get;
  if negb (_exists s tokenId) then mret false
  else mret (bool_decide ((tokenId, courseId) ∈ certificateCourseExists s)).

(** Returns (tokenId, totalCourses, issuedAt, lastUpdated). *)
Definition getUserCertificateStats (user : Z) : M (Z * Z * Z * Z) :=
  s ← get;
  let tokenId := userCert s user in
  if tokenId =? 0 then mret (0, 0, 0, 0)
  else
    let cert := cert_at s tokenId in
    mret (tokenId, totalCoursesCompleted cert, issuedAt cert, lastUpdated cert).

Definition verifyCertificate (tokenId : Z) : M bool :=
  s ← get; mret (_exists s tokenId && isValid (cert_at s tokenId)).

(** Returns (recipientName, platformName, totalCourses, issuedAt, lastUpdated, isValid). *)
Definition getLearningJourneySummary (tokenId : Z)
    : M (string * string * Z * Z * Z * bool) :=
  s ← get;
  revert_if (negb (_exists s tokenId)) (CertificateNotFound tokenId);;
  let cert := cert_at s tokenId in
  mret (recipientName cert, platformName cert, totalCoursesCompleted cert,
        issuedAt cert, lastUpdated cert, isValid cert).

Definition getCourseCertificatePrice (courseId : Z) : M Z :=
  s ← get;
  let creatorPrice := default 0 (courseCertificatePrices s !! courseId) in
  if 0 <? creatorPrice then mret creatorPrice
  else mret (defaultCertificateFee (cfg s)).

Definition getCourseCompletionDate (tokenId courseId : Z) : M Z :=
  s ← get; mret (default 0 (certificateCourseCompletionDate s !! (tokenId, courseId))).

(** OpenZeppelin Strings: [HEX_DIGITS] and [byte(d, HEX_DIGITS)]. *)
Definition HEX_DIGITS : string := "0123456789abcdef".
Definition hex_digit (d : Z) : Ascii.ascii :=
  match String.get (Z.to_nat d) HEX_DIGITS with Some a => a | None => Ascii.zero end.

(** The [while (true)] loop of Strings.toString: one decimal digit per round,
    least significant written last; a uint256 has at most 78 digits. *)
Fixpoint toString_loop (fuel : nat) (value : Z) (buffer : string) : string :=
  match fuel with
  | O => buffer
  | S fuel' =>
      let buffer' := String (hex_digit (value mod 10)) buffer in
      let value' := value / 10 in
      if value' =? 0 then buffer' else toString_loop fuel' value' buffer'
  end.

(** Strings.toString(uint256) *)
Definition toString (value : Z) : string := toString_loop 78 value "".

(** The loop of Strings.toHexString(value, length): [2 * length] hex digits
    from the least significant one, returning the digits and what is left. *)
Fixpoint toHexString_loop (n : nat) (localValue : Z) (buffer : string) : string * Z :=
  match n with
  | O => (buffer, localValue)
  | S n' => toHexString_loop n' (Z.shiftr localValue 4)
              (String (hex_digit (Z.land localValue 15)) buffer)
  end.

(** Strings.toHexString(uint256 value, uint256 length): [new bytes(2 * length + 2)]
    is checked arithmetic (panic 0x11), and a memory array longer than
    [2 ^ 64 - 1] cannot be allocated (panic 0x41). *)
Definition toHexString (value length : Z) : M string :=
  twice ← checked_mul 2 length;
  size ← checked_add twice 2;
  revert_if (2 ^ 64 - 1 <? size) (Panic 65);;
  let '(digits, localValue) := toHexString_loop (Z.to_nat (2 * length)) value "" in
  revert_if (negb (localValue =? 0)) (StringsInsufficientHexLength value length);;
  mret (String.append "0x" digits).

(** ERC1155.uri: the [_uri] set by [ERC1155("")] in the constructor. *)
Definition ERC1155_uri (tokenId : Z) : string := "".

Definition uri (tokenId : Z) : M string :=
  s ← get;
  revert_if (negb (_exists s tokenId)) (CertificateNotFound tokenId);;
  let custom := default "" (tokenURIs s !! tokenId) in
  if (0 <? String.length custom)%nat then mret custom
  else if (0 <? String.length (defaultMetadataBaseURI (cfg s)))%nat then
    mret (String.append (defaultMetadataBaseURI (cfg s))
            (String.append "/" (toString tokenId)))
  else mret (String.append (ERC1155_uri tokenId)
               (String.append (toString tokenId) ".json")).

(** [uint160(cert.recipientAddress)]: addresses are held as their 160-bit value. *)
Definition generateQRData (tokenId : Z) : M string :=
  s ← get;
  revert_if (negb (_exists s tokenId)) (CertificateNotFound tokenId);;
  let cert := cert_at s tokenId in
  if (String.length (baseRoute cert) =? 0)%nat then mret ""
  else
    addr ← toHexString (recipientAddress cert) 20;
    mret (String.append (baseRoute cert) (String.append "?address="
           (String.append addr (String.append "&tokenId="
           (String.append (toString tokenId) (String.append "&courses="
             (toString (totalCoursesCompleted cert)))))))).

(** ** External entry points *)

Inductive Call : Type :=
| MintOrUpdateCertificate (courseId : Z) (recipientName ipfsCID : string)
    (paymentReceiptHash : Z) (baseRoute : string)
| UpdateCertificate (tokenId : Z) (newIpfsCID : string) (paymentReceiptHash : Z)
| AddMultipleCoursesToCertificate (courseIds : list Z) (ipfsCID : string)
    (paymentReceiptHash : Z)
| SetDefaultCertificateFee (newFee : Z)
| SetDefaultCourseAdditionFee (newFee : Z)
| SetPlatformWallet (newWallet : Z)
| SetDefaultPlatformName (newPlatformName : string)
| SetCourseCertificatePrice (courseId price : Z)
| SetTokenURI (tokenId : Z) (tokenURI : string)
| UpdateBaseRoute (tokenId : Z) (newBaseRoute : string)
| UpdateDefaultBaseRoute (newBaseRoute : string)
| UpdateDefaultMetadataBaseURI (newBaseURI : string)
| BatchUpdateBaseRoute (tokenIds : list Z) (newBaseRoute : string)
| RevokeCertificate (tokenId : Z) (reason : string)
| Pause
| Unpause
| TransferOwnership (newOwner : Z)
| RenounceOwnership
| SetApprovalForAll (operator : Z) (approved : bool)
| SafeTransferFrom (from to id value : Z)
| SafeBatchTransferFrom (from to : Z) (ids values : list Z).

Definition dispatch (c : Call) : M unit :=
  match c with
  | MintOrUpdateCertificate courseId rn cid h br => mintOrUpdateCertificate courseId rn cid h br
  | UpdateCertificate t cid h => updateCertificate t cid h
  | AddMultipleCoursesToCertificate ids cid h => addMultipleCoursesToCertificate ids cid h
  | SetDefaultCertificateFee f => setDefaultCertificateFee f
  | SetDefaultCourseAdditionFee f => setDefaultCourseAdditionFee f
  | SetPlatformWallet w => setPlatformWallet w
  | SetDefaultPlatformName n => setDefaultPlatformName n
  | SetCourseCertificatePrice courseId p => setCourseCertificatePrice courseId p
  | SetTokenURI t u => setTokenURI t u
  | UpdateBaseRoute t r => updateBaseRoute t r
  | UpdateDefaultBaseRoute r => updateDefaultBaseRoute r
  | UpdateDefaultMetadataBaseURI u => updateDefaultMetadataBaseURI u
  | BatchUpdateBaseRoute ts r => batchUpdateBaseRoute ts r
  | RevokeCertificate t r => revokeCertificate t r
  | Pause => pause
  | Unpause => unpause
  | TransferOwnership o => transferOwnership o
  | RenounceOwnership => renounceOwnership
  | SetApprovalForAll op b => setApprovalForAll op b
  | SafeTransferFrom f t i v => safeTransferFrom f t i v
  | SafeBatchTransferFrom f t is vs => safeBatchTransferFrom f t is vs
  end.

(** A transaction: a reverted call leaves the storage as it was. *)
Definition post (env : Env) (c : Call) (s : St) : St :=
  match dispatch c env s with
  | Ok _ s' => s'
  | Revert _ => s
  end.

Definition succeeds (env : Env) (c : Call) (s : St) : bool :=
  match dispatch c env s with
  | Ok _ _ => true
  | Revert _ => false
  end.

(** The storage written by the constructor. *)
Definition initialState (deployer platformWallet : Z) (initialBaseRoute platformName : string)
    : St := {|
    cfg := {| owner_ := deployer; paused_ := false; platformWallet := platformWallet;
              defaultCertificateFee := ether / 1000;
              defaultCourseAdditionFee := ether / 10000;
              defaultPlatformName := platformName;
              defaultBaseRoute := initialBaseRoute;
              defaultMetadataBaseURI := "" |};
    entered := false;
    nextTokenId := 1;
    certificates := ∅;
    userCertificates := ∅;
    usedPaymentHashes := ∅;
    tokenURIs := ∅;
    certificateCourseExists := ∅;
    courseCertificatePrices := ∅;
    certificateCourseCompletionDate := ∅;
    balances := ∅;
    operatorApprovals := ∅;
    trace := [] |}.

(** constructor(_courseFactory, _progressTracker, _courseLicense,
    _platformWallet, _initialBaseRoute, _platformName), run by [deployer]. *)
Definition constructor (deployer courseFactory progressTracker courseLicense
    platformWallet : Z) (initialBaseRoute platformName : string) : result unit :=
  if courseFactory =? 0 then Revert (InvalidAddress courseFactory)
  else if progressTracker =? 0 then Revert (InvalidAddress progressTracker)
  else if courseLicense =? 0 then Revert (InvalidAddress courseLicense)
  else if platformWallet =? 0 then Revert (InvalidAddress platformWallet)
  else if deployer =? 0 then Revert (OwnableInvalidOwner 0)
  else Ok tt (initialState deployer platformWallet initialBaseRoute platformName).

(** States reachable from a deployment by a sequence of transactions. *)
Inductive reachable : St -> Prop :=
| reachable_init deployer cf pt cl pw br pn s :
    constructor deployer cf pt cl pw br pn = Ok tt s -> reachable s
| reachable_step env c s :
    reachable s -> reachable (post env c s).

(** ** Reasoning devices *)

(** Outcome predicate covering both ends: [Q] of a non-reverting outcome,
    [R] of the error of a reverting one. *)
Definition wpe {A} (m : M A) (Q : A -> St -> Prop) (R : Err -> Prop) (env : Env) (s : St)
    : Prop :=
  match m env s with
  | Ok a s' => Q a s'
  | Revert e => R e
  end.

(** Weakest (partial) precondition: [Q] holds of every non-reverting outcome. *)
Definition wp {A} (m : M A) (Q : A -> St -> Prop) (env : Env) (s : St) : Prop :=
  match m env s with
  | Ok a s' => Q a s'
  | Revert _ => True
  end.

(** The legs a settlement pays, as (recipient, amount): platform share
    [totalAmount * bps / 10000], the rest to [recipient], then the refund. *)
Definition settlementLegs (bps platform recipient totalAmount value sender : Z)
    : list (Z * Z) :=
  let platformFee := totalAmount * bps / 10000 in
  let share := totalAmount - platformFee in
  (if 0 <? platformFee then [(platform, platformFee)] else []) ++
  (if 0 <? share then [(recipient, share)] else []) ++
  (if totalAmount <? value then [(sender, value - totalAmount)] else []).

(** Transfer events for [legs], each observing the storage [s]. *)
Definition snapshots (s : St) (legs : list (Z * Z)) : list Ev :=
  map (fun '(to, amount) => Transfer to amount (usedPaymentHashes s) (certificates s)
                             (userCertificates s) (certificateCourseExists s)) legs.

Definition leg (e : Ev) : Z * Z :=
  match e with Transfer to amount _ _ _ _ => (to, amount) end.

(** The owner recorded at key [t] of the certificate store, if any. *)
Definition owner_at (s : St) (t : Z) : option Z :=
  option_map recipientAddress (certificates s !! t).

(** Well-formedness of the certificate store. *)
Definition Wf (s : St) : Prop :=
  1 <= nextTokenId s /\
  (forall t, is_Some (owner_at s t) <-> 1 <= t < nextTokenId s) /\
  (forall u t, userCertificates s !! u = Some t -> owner_at s t = Some u) /\
  (forall t u, owner_at s t = Some u -> userCertificates s !! u = Some t) /\
  0 ∉ usedPaymentHashes s.

(** The payment identifier a call presents, for the three paying entry points. *)
Definition consumes (c : Call) : option Z :=
  match c with
  | MintOrUpdateCertificate _ _ _ h _ => Some h
  | UpdateCertificate _ _ h => Some h
  | AddMultipleCoursesToCertificate _ _ h => Some h
  | _ => None
  end.

(** The checks the three paying entry points make before the replay check,
    apart from the modifiers nonReentrant and whenNotPaused: the content
    reference passes [validStringLength(.., 2000, ..)], and a batch is not empty. *)
Definition before_replay_check (c : Call) : bool :=
  let len_ok (str : string) :=
    let len := Z.of_nat (String.length str) in negb ((len =? 0) || (2000 <? len)) in
  match c with
  | MintOrUpdateCertificate _ _ cid _ _ => len_ok cid
  | UpdateCertificate _ cid _ => len_ok cid
  | AddMultipleCoursesToCertificate ids cid _ => len_ok cid && negb (length ids =? 0)%nat
  | _ => false
  end.

(** Run a list of transactions, reporting for each call whether it succeeded. *)
Fixpoint run (s : St) (txs : list (Env * Call)) : St * list (Call * bool) :=
  match txs with
  | [] => (s, [])
  | (env, c) :: rest =>
      let '(s', outs) := run (post env c s) rest in
      (s', (c, succeeds env c s) :: outs)
  end.

(** Number of successful calls in [outs] that consumed identifier [X]. *)
Definition successes_consuming (X : Z) (outs : list (Call * bool)) : nat :=
  length (List.filter (fun '(c, ok) => ok && bool_decide (consumes c = Some X)) outs).

(** The storage after the append loop of addMultipleCoursesToCertificate. *)
Definition addCourses_state (tokenId : Z) (courseIds : list Z) (s : St) : St :=
  fold_left (fun s courseId =>
      set_certificateCourseExists (union {[(tokenId, courseId)]})
        (update_cert tokenId (cert_push courseId) s)) courseIds s.

(** The storage after the loop of batchUpdateBaseRoute. *)
Definition batchUpdateBaseRoute_state (tokenIds : list Z) (newBaseRoute : string)
    (timestamp : Z) (s : St) : St :=
  fold_left (fun s t =>
      if _exists s t then
        update_cert t (cert_set_lastUpdated timestamp) (update_cert t (cert_set_baseRoute newBaseRoute) s)
      else s) tokenIds s.

(** A transition that creates no certificate: ids, the user index and every
    record's owner are kept, the replay guard only grows and never admits 0. *)
Definition Frame (s s' : St) : Prop :=
  nextTokenId s' = nextTokenId s /\
  userCertificates s' = userCertificates s /\
  (forall k, owner_at s' k = owner_at s k) /\
  usedPaymentHashes s ⊆ usedPaymentHashes s' /\
  (0 ∈ usedPaymentHashes s' -> 0 ∈ usedPaymentHashes s).

(** A transition that mints certificate [nextTokenId s] to [u]. *)
Definition Minted (u : Z) (s s' : St) : Prop :=
  nextTokenId s' = nextTokenId s + 1 /\
  userCertificates s !! u = None /\
  userCertificates s' = <[u := nextTokenId s]> (userCertificates s) /\
  (forall k, owner_at s' k = if decide (k = nextTokenId s) then Some u else owner_at s k) /\
  usedPaymentHashes s ⊆ usedPaymentHashes s' /\
  (0 ∈ usedPaymentHashes s' -> 0 ∈ usedPaymentHashes s).

(** A transfer event observed the final storage [s']. *)
Definition observes (s' : St) (e : Ev) : Prop :=
  match e with
  | Transfer _ _ used certs users courseExists =>
      used = usedPaymentHashes s' /\ certs = certificates s' /\
      users = userCertificates s' /\ courseExists = certificateCourseExists s'
  end.

(** Total amount paid out by a list of (recipient, amount) legs. *)
Definition paid (legs : list (Z * Z)) : Z :=
  fold_right (fun '(_, amount) acc => amount + acc) 0 legs.

(** ** A concrete deployment *)

(** Transaction context: every course but 10 completed by everyone, a licence
    for every course, course creator 500, three sections completed at time 900,
    every value transfer and every token receipt accepted. *)
Definition env_of (sender value : Z) : Env :=
  mkEnv sender value 1000 (fun _ c => negb (c =? 10)) (fun _ c => c) (fun _ => Some 500)
    (fun _ => 3) (fun _ _ _ => 900) (fun _ _ => true) (fun _ => true).

(** Deployed by 1 with platform wallet 99. *)
Definition s0 : St := initialState 1 99 "https://x" "EduVerse".

(** Principal 7 mints certificate 1 for course 5, paying 0.001 ether with receipt 11. *)
Definition s1 : St :=
  post (env_of 7 (10 ^ 15)) (MintOrUpdateCertificate 5 "Ann" "cid1" 11 "") s0.

(** ** Effects, invariants and decoders of the further properties *)

(** The storage change of a successful first mint by [msg_sender env]: the
    new certificate [nextTokenId s], its index entries, one token, and the
    settlement of the course price at 10%. *)
Definition MintEffects (env : Env) (courseId : Z) (rn cid : string) (h : Z) (br : string)
    (s s' : St) : Prop :=
  let sender := msg_sender env in
  let n := nextTokenId s in
  paused_ (cfg s) = false /\ h <> 0 /\ (h ∉ usedPaymentHashes s) /\
  isCourseCompleted env sender courseId = true /\ getLicenseCourseId env sender courseId <> 0 /\
  nextTokenId s' = n + 1 /\
  certificates s' = <[n := mkCertificate n (defaultPlatformName (cfg s)) rn sender true true
                            cid br (block_timestamp env) (block_timestamp env) 1 h [courseId]]>
                      (certificates s) /\
  userCertificates s' = <[sender := n]> (userCertificates s) /\
  usedPaymentHashes s' = {[h]} ∪ usedPaymentHashes s /\
  certificateCourseExists s' = {[(n, courseId)]} ∪ certificateCourseExists s /\
  balances s' = <[(n, sender) := balanceOf s sender n + 1]> (balances s) /\
  cfg s' = cfg s /\ entered s' = false /\ tokenURIs s' = tokenURIs s /\
  courseCertificatePrices s' = courseCertificatePrices s /\
  certificateCourseCompletionDate s' = certificateCourseCompletionDate s /\
  operatorApprovals s' = operatorApprovals s /\
  exists price creator new,
    getCourseCertificatePrice courseId env s = Ok price s /\ price <= msg_value env /\
    getCourseCreator env courseId = Some creator /\
    trace s' = trace s ++ new /\
    map leg new = settlementLegs 1000 (platformWallet (cfg s)) creator price (msg_value env) sender.

(** The storage change of a successful single append to the caller's
    certificate: the course pushed, the count, timestamps, content reference
    and receipt updated, the completion date recorded, and the course price
    settled at 2%. *)
Definition AppendEffects (env : Env) (courseId : Z) (cid : string) (h : Z) (s s' : St) : Prop :=
  let sender := msg_sender env in
  let t := userCert s sender in
  let cert := cert_at s t in
  let sections := getCourseSectionsLength env courseId in
  paused_ (cfg s) = false /\ h <> 0 /\ (h ∉ usedPaymentHashes s) /\
  isCourseCompleted env sender courseId = true /\ getLicenseCourseId env sender courseId <> 0 /\
  t <> 0 /\ recipientAddress cert = sender /\ isValid cert = true /\
  ((t, courseId) ∉ certificateCourseExists s) /\
  nextTokenId s' = nextTokenId s /\
  certificates s' = <[t := cert_set_paymentReceiptHash h (cert_set_ipfsCID cid
                         (cert_set_lastUpdated (block_timestamp env)
                         (cert_set_total (wrap256 (totalCoursesCompleted cert + 1))
                         (cert_push courseId cert))))]> (certificates s) /\
  userCertificates s' = userCertificates s /\
  usedPaymentHashes s' = {[h]} ∪ usedPaymentHashes s /\
  certificateCourseExists s' = {[(t, courseId)]} ∪ certificateCourseExists s /\
  certificateCourseCompletionDate s' =
    (if 0 <? sections
     then <[(t, courseId) := getSectionCompletedAt env sender courseId (sections - 1)]>
            (certificateCourseCompletionDate s)
     else certificateCourseCompletionDate s) /\
  balances s' = balances s /\ cfg s' = cfg s /\ entered s' = false /\
  tokenURIs s' = tokenURIs s /\ courseCertificatePrices s' = courseCertificatePrices s /\
  operatorApprovals s' = operatorApprovals s /\
  exists price creator new,
    getCourseCertificatePrice courseId env s = Ok price s /\ price <= msg_value env /\
    getCourseCreator env courseId = Some creator /\
    trace s' = trace s ++ new /\
    map leg new = settlementLegs 200 (platformWallet (cfg s)) creator price (msg_value env) sender.

(** [completedCourses.push] for each course of a batch, in order. *)
Definition cert_push_all (courseIds : list Z) (c : Certificate) : Certificate :=
  fold_left (fun c courseId => cert_push courseId c) courseIds c.

(** The storage change of a successful addMultipleCoursesToCertificate:
    every course appended, the count raised by the batch length, and
    [defaultCourseAdditionFee * n] settled at 10% to the platform wallet. *)
Definition BatchEffects (env : Env) (courseIds : list Z) (cid : string) (h : Z) (s s' : St) : Prop :=
  let sender := msg_sender env in
  let t := userCert s sender in
  let cert := cert_at s t in
  let totalFee := defaultCourseAdditionFee (cfg s) * Z.of_nat (length courseIds) in
  paused_ (cfg s) = false /\ courseIds <> [] /\ h <> 0 /\ (h ∉ usedPaymentHashes s) /\
  t <> 0 /\ isValid cert = true /\ totalFee <= UINT256_MAX /\ totalFee <= msg_value env /\
  Forall (fun c => isCourseCompleted env sender c = true /\
                   ((t, c) ∉ certificateCourseExists s)) courseIds /\
  nextTokenId s' = nextTokenId s /\
  certificates s' = <[t := cert_set_paymentReceiptHash h (cert_set_ipfsCID cid
                         (cert_set_lastUpdated (block_timestamp env)
                         (cert_set_total (wrap256 (totalCoursesCompleted cert + Z.of_nat (length courseIds)))
                         (cert_push_all courseIds cert))))]> (certificates s) /\
  userCertificates s' = userCertificates s /\
  usedPaymentHashes s' = {[h]} ∪ usedPaymentHashes s /\
  (forall k c, (k, c) ∈ certificateCourseExists s' <->
               (k = t /\ In c courseIds) \/ (k, c) ∈ certificateCourseExists s) /\
  certificateCourseCompletionDate s' = certificateCourseCompletionDate s /\
  balances s' = balances s /\ cfg s' = cfg s /\ entered s' = false /\
  tokenURIs s' = tokenURIs s /\ courseCertificatePrices s' = courseCertificatePrices s /\
  operatorApprovals s' = operatorApprovals s /\
  exists new, trace s' = trace s ++ new /\
    map leg new = settlementLegs 1000 (platformWallet (cfg s)) (platformWallet (cfg s))
                    totalFee (msg_value env) sender.

(** What identifies the content of a certificate: owner, courses, count. *)
Definition core (c : Certificate) : Z * list Z * Z :=
  (recipientAddress c, completedCourses c, totalCoursesCompleted c).

(** A transition that creates no certificate and changes no owner, course
    list, course count, course index or balance, and revalidates nothing. *)
Definition Quiet (s s' : St) : Prop :=
  nextTokenId s' = nextTokenId s /\
  userCertificates s' = userCertificates s /\
  (forall t, option_map core (certificates s' !! t) = option_map core (certificates s !! t)) /\
  (forall t c, certificates s !! t = Some c -> isValid c = false ->
     exists c', certificates s' !! t = Some c' /\ isValid c' = false) /\
  certificateCourseExists s' = certificateCourseExists s /\
  balances s' = balances s.

(** The four shapes of a successful call. *)
Definition Outcome (env : Env) (s s' : St) : Prop :=
  Quiet s s' \/
  (exists courseId rn cid h br, userCert s (msg_sender env) = 0 /\
     MintEffects env courseId rn cid h br s s') \/
  (exists courseId cid h, AppendEffects env courseId cid h s s') \/
  (exists courseIds cid h, BatchEffects env courseIds cid h s s').

(** [certificateCourseExists] indexes exactly the stored course lists. *)
Definition CourseIndexOK (s : St) : Prop :=
  forall t c, (t, c) ∈ certificateCourseExists s <->
              exists cert, certificates s !! t = Some cert /\ In c (completedCourses cert).

(** [totalCoursesCompleted] is the (wrapped) length of the course list. *)
Definition CountOK (s : St) : Prop :=
  forall t cert, certificates s !! t = Some cert ->
    totalCoursesCompleted cert = wrap256 (Z.of_nat (length (completedCourses cert))).

(** A token balance is 1 for the certificate's recipient and 0 otherwise. *)
Definition BalanceOK (s : St) : Prop :=
  forall t a, balanceOf s a t = if decide (owner_at s t = Some a) then 1 else 0.

Definition DataInv (s : St) : Prop := CourseIndexOK s /\ CountOK s /\ BalanceOK s.


(** The fees and price overrides are non-zero and at most the cap. *)
Definition PriceOK (s : St) : Prop :=
  defaultCertificateFee (cfg s) <> 0 /\ defaultCertificateFee (cfg s) <= MAX_CERTIFICATE_PRICE /\
  defaultCourseAdditionFee (cfg s) <> 0 /\ defaultCourseAdditionFee (cfg s) <= MAX_CERTIFICATE_PRICE /\
  forall courseId p, courseCertificatePrices s !! courseId = Some p ->
    p <> 0 /\ p <= MAX_CERTIFICATE_PRICE.

(** Decimal reading of a string (a decoder used to reason about
    [toString]): the value of an ASCII digit, and the number a digit string
    denotes. *)
Definition digit_value (a : Ascii.ascii) : Z := Z.of_nat (Ascii.nat_of_ascii a) - 48.

Fixpoint decimal_acc (acc : Z) (str : string) : Z :=
  match str with
  | EmptyString => acc
  | String a rest => decimal_acc (acc * 10 + digit_value a) rest
  end.

(** ** Monad lemmas *)

Lemma wp_bind {A B} (m : M A) (k : A -> M B) Q env s :
  wp m (fun a s' => wp (k a) Q env s') env s -> wp (mbind k m) Q env s.
Proof. unfold wp, mbind, M_bind. destruct (m env s); auto. Qed.

Lemma wp_ret {A} (a : A) Q env s : Q a s -> wp (mret a) Q env s.
Proof. auto. Qed.

Lemma wp_get Q env s : Q s s -> wp get Q env s.
Proof. auto. Qed.

Lemma wp_ask Q env s : Q env s -> wp ask Q env s.
Proof. auto. Qed.

Lemma wp_modify f Q env s : Q tt (f s) -> wp (modify f) Q env s.
Proof. auto. Qed.

Lemma wp_revert {A} (e : Err) (Q : A -> St -> Prop) env s : wp (revert e) Q env s.
Proof. exact I. Qed.

Lemma wp_conseq {A} (m : M A) (Q Q' : A -> St -> Prop) env s :
  wp m Q env s -> (forall a s', Q a s' -> Q' a s') -> wp m Q' env s.
Proof. unfold wp. destruct (m env s); auto. Qed.

Lemma wpe_bind {A B} (m : M A) (k : A -> M B) Q R env s :
  wpe m (fun a s' => wpe (k a) Q R env s') R env s -> wpe (mbind k m) Q R env s.
Proof. unfold wpe, mbind, M_bind. destruct (m env s); auto. Qed.

Lemma wpe_ret {A} (a : A) Q R env s : Q a s -> wpe (mret a) Q R env s.
Proof. auto. Qed.

Lemma wpe_get Q R env s : Q s s -> wpe get Q R env s.
Proof. auto. Qed.

Lemma wpe_ask Q R env s : Q env s -> wpe ask Q R env s.
Proof. auto. Qed.

Lemma wpe_modify f Q R env s : Q tt (f s) -> wpe (modify f) Q R env s.
Proof. auto. Qed.

Lemma wpe_revert {A} (e : Err) (Q : A -> St -> Prop) R env s : R e -> wpe (revert e) Q R env s.
Proof. auto. Qed.

Ltac wp_unfold :=
  unfold nonReentrant, whenNotPaused, whenPaused, onlyOwner, validStringLength,
    revert_if, require, checked_add, checked_sub, checked_mul, getCourseCreator_,
    _getCertificatePrice, call_value.

Ltac wp_core :=
  lazymatch goal with
  | |- wp (mbind _ _) _ _ _ => apply wp_bind
  | |- wp (mret _) _ _ _ => apply wp_ret
  | |- wp get _ _ _ => apply wp_get
  | |- wp ask _ _ _ => apply wp_ask
  | |- wp (modify _) _ _ _ => apply wp_modify
  | |- wp (revert _) _ _ _ => apply wp_revert
  | |- wp (if ?b then _ else _) _ _ _ => destruct b eqn:?
  | |- wp (match ?o with _ => _ end) _ _ _ => destruct o eqn:?
  end; cbv beta zeta.

Ltac wpe_core :=
  lazymatch goal with
  | |- wpe (mbind _ _) _ _ _ _ => apply wpe_bind
  | |- wpe (mret _) _ _ _ _ => apply wpe_ret
  | |- wpe get _ _ _ _ => apply wpe_get
  | |- wpe ask _ _ _ _ => apply wpe_ask
  | |- wpe (modify _) _ _ _ _ => apply wpe_modify
  | |- wpe (revert _) _ _ _ _ => apply wpe_revert
  | |- wpe (if ?b then _ else _) _ _ _ _ => destruct b eqn:?
  | |- wpe (match ?o with _ => _ end) _ _ _ _ => destruct o eqn:?
  | |- wpe (erc1155_move _ _ _ _) _ _ _ _ => cbn [erc1155_move]; unfold revert_if, checked_add
  end; cbv beta zeta.

Lemma snapshots_app s l1 l2 : snapshots s (l1 ++ l2) = snapshots s l1 ++ snapshots s l2.
Proof. unfold snapshots. apply map_app. Qed.

Lemma set_trace_set_trace f g s : set_trace f (set_trace g s) = set_trace (fun tr => f (g tr)) s.
Proof. reflexivity. Qed.


(** Settlement appends exactly the legs of [settlementLegs] and writes nothing else. *)
Lemma wp_processCertificatePayment recipient totalAmount Q env s :
  Q tt (set_trace (fun tr => tr ++ snapshots s (settlementLegs 1000 (platformWallet (cfg s))
          recipient totalAmount (msg_value env) (msg_sender env))) s) ->
  wp (_processCertificatePayment recipient totalAmount) Q env s.
Proof.
  intros HQ. unfold _processCertificatePayment. wp_unfold.
  repeat wp_core; auto;
  repeat match goal with H : _ = true |- _ => apply Z.ltb_lt in H
                       | H : _ = false |- _ => apply Z.ltb_ge in H end;
  revert HQ; unfold settlementLegs;
  repeat match goal with |- context [?a <? ?b] => destruct (Z.ltb_spec a b) end;
  try lia; intros HQ; destruct s; unfold set_trace in *; cbn in *; rewrite <- ?app_assoc, ?app_nil_r in *; exact HQ.
Qed.

Lemma wp_processPayment recipient totalAmount Q env s :
  Q tt (set_trace (fun tr => tr ++ snapshots s (settlementLegs 200 (platformWallet (cfg s))
          recipient totalAmount (msg_value env) (msg_sender env))) s) ->
  wp (_processPayment recipient totalAmount) Q env s.
Proof.
  intros HQ. unfold _processPayment. wp_unfold.
  repeat wp_core; auto;
  repeat match goal with H : _ = true |- _ => apply Z.ltb_lt in H
                       | H : _ = false |- _ => apply Z.ltb_ge in H end;
  revert HQ; unfold settlementLegs;
  repeat match goal with |- context [?a <? ?b] => destruct (Z.ltb_spec a b) end;
  try lia; intros HQ; destruct s; unfold set_trace in *; cbn in *;
  rewrite <- ?app_assoc, ?app_nil_r in *; exact HQ.
Qed.

Lemma wp_validateCourses tokenId courseIds Q env s :
  Q tt s -> wp (validateCourses tokenId courseIds) Q env s.
Proof.
  revert s. induction courseIds as [|c rest IH]; intros s HQ; cbn [validateCourses].
  - exact HQ.
  - unfold revert_if. repeat wp_core; auto.
Qed.

Lemma wp_addCourses tokenId courseIds Q env s :
  Q tt (addCourses_state tokenId courseIds s) -> wp (addCourses tokenId courseIds) Q env s.
Proof.
  revert s. induction courseIds as [|c rest IH]; intros s HQ; cbn [addCourses].
  - exact HQ.
  - repeat wp_core. apply IH. exact HQ.
Qed.

Lemma wp_batchUpdateBaseRouteLoop tokenIds newBaseRoute Q env s :
  Q tt (batchUpdateBaseRoute_state tokenIds newBaseRoute (block_timestamp env) s) ->
  wp (batchUpdateBaseRouteLoop tokenIds newBaseRoute) Q env s.
Proof.
  revert s. induction tokenIds as [|t rest IH]; intros s HQ; cbn [batchUpdateBaseRouteLoop].
  - exact HQ.
  - repeat wp_core; apply IH; cbn in HQ; rewrite Heqb in HQ; exact HQ.
Qed.

(** ** Frame and well-formedness *)

Lemma Frame_refl s : Frame s s.
Proof. unfold Frame. repeat split; auto; set_solver. Qed.

Lemma Frame_trans s1 s2 s3 : Frame s1 s2 -> Frame s2 s3 -> Frame s1 s3.
Proof.
  unfold Frame. intros (H1 & H2 & H3 & H4 & H5) (G1 & G2 & G3 & G4 & G5).
  split; [congruence|]. split; [congruence|]. split; [|split].
  - intros k. rewrite G3. apply H3.
  - set_solver.
  - auto.
Qed.

Lemma Wf_Frame s s' : Wf s -> Frame s s' -> Wf s'.
Proof.
  unfold Wf, Frame. intros (W1 & W2 & W3 & W4 & W5) (F1 & F2 & F3 & F4 & F5).
  rewrite F1, F2. split; [lia|]. split; [|split; [|split]].
  - intros t. rewrite F3. apply W2.
  - intros u t H. rewrite F3. apply W3, H.
  - intros t u H. rewrite F3 in H. apply W4, H.
  - intros H0. apply W5, F5, H0.
Qed.

Lemma Frame_set_entered_r s0 x b : Frame s0 x -> Frame s0 (set_entered b x).
Proof. auto. Qed.
Lemma Frame_set_trace_r s0 x f : Frame s0 x -> Frame s0 (set_trace f x).
Proof. auto. Qed.
Lemma Frame_set_cfg_r s0 x f : Frame s0 x -> Frame s0 (set_cfg f x).
Proof. auto. Qed.
Lemma Frame_set_tokenURIs_r s0 x f : Frame s0 x -> Frame s0 (set_tokenURIs f x).
Proof. auto. Qed.
Lemma Frame_set_certificateCourseExists_r s0 x f :
  Frame s0 x -> Frame s0 (set_certificateCourseExists f x).
Proof. auto. Qed.
Lemma Frame_set_courseCertificatePrices_r s0 x f :
  Frame s0 x -> Frame s0 (set_courseCertificatePrices f x).
Proof. auto. Qed.
Lemma Frame_set_certificateCourseCompletionDate_r s0 x f :
  Frame s0 x -> Frame s0 (set_certificateCourseCompletionDate f x).
Proof. auto. Qed.
Lemma Frame_set_operatorApprovals_r s0 x f :
  Frame s0 x -> Frame s0 (set_operatorApprovals f x).
Proof. auto. Qed.
Lemma Frame_set_balances_r s0 x f : Frame s0 x -> Frame s0 (set_balances f x).
Proof. auto. Qed.

Lemma Frame_set_used_r s0 x h :
  h <> 0 -> Frame s0 x -> Frame s0 (set_usedPaymentHashes (union {[h]}) x).
Proof.
  unfold Frame. intros Hh (F1 & F2 & F3 & F4 & F5). cbn.
  repeat split; auto; [set_solver | intros H; apply F5; set_solver].
Qed.

Lemma owner_at_update_cert x t f k :
  is_Some (certificates x !! t) -> (forall c, recipientAddress (f c) = recipientAddress c) ->
  owner_at (update_cert t f x) k = owner_at x k.
Proof.
  intros [c Hc] Hf. unfold owner_at, update_cert, cert_at. cbn.
  destruct (decide (k = t)) as [->|Hne].
  - rewrite lookup_insert_eq, Hc. cbn. rewrite Hf. reflexivity.
  - rewrite lookup_insert_ne by congruence. reflexivity.
Qed.

Lemma Frame_dom s0 x t : Frame s0 x -> is_Some (certificates s0 !! t) -> is_Some (certificates x !! t).
Proof.
  intros (_ & _ & F3 & _) [c Hc]. specialize (F3 t). unfold owner_at in F3. rewrite Hc in F3.
  destruct (certificates x !! t); [eauto | discriminate].
Qed.

Lemma Frame_update_cert_r s0 x t f :
  Frame s0 x -> is_Some (certificates s0 !! t) ->
  (forall c, recipientAddress (f c) = recipientAddress c) ->
  Frame s0 (update_cert t f x).
Proof.
  intros HF Hs Hf. pose proof (Frame_dom _ _ _ HF Hs) as Hx.
  destruct HF as (F1 & F2 & F3 & F4 & F5).
  repeat split; auto. intros k. rewrite owner_at_update_cert; auto.
Qed.

Lemma Frame_addCourses_r s0 x t l :
  Frame s0 x -> is_Some (certificates s0 !! t) -> Frame s0 (addCourses_state t l x).
Proof.
  unfold addCourses_state. revert x. induction l as [|c l IH]; intros x HF Hs; cbn; auto.
  apply IH; auto. apply Frame_set_certificateCourseExists_r, Frame_update_cert_r; auto.
Qed.

Lemma owner_at_dom s t : is_Some (owner_at s t) <-> is_Some (certificates s !! t).
Proof.
  unfold owner_at. destruct (certificates s !! t); cbn; split; intros []; eauto; discriminate.
Qed.

Lemma Wf_exists_dom s t : Wf s -> _exists s t = true -> is_Some (certificates s !! t).
Proof.
  intros (_ & W2 & _) H. unfold _exists in H.
  apply andb_true_iff in H as [H1 H2]. apply Z.ltb_lt in H1, H2.
  apply owner_at_dom, W2. lia.
Qed.

Lemma Wf_userCert_dom s u : Wf s -> userCert s u <> 0 -> is_Some (certificates s !! userCert s u).
Proof.
  intros (_ & _ & W3 & _) H. unfold userCert in *.
  destruct (userCertificates s !! u) as [t|] eqn:E; cbn in *; [|congruence].
  apply owner_at_dom. rewrite (W3 u t E). eauto.
Qed.

Lemma Frame_batch_r s0 x l r ts :
  Wf s0 -> Frame s0 x -> Frame s0 (batchUpdateBaseRoute_state l r ts x).
Proof.
  intros HW. unfold batchUpdateBaseRoute_state. revert x. induction l as [|t l IH]; intros x HF; cbn; auto.
  apply IH. destruct (_exists x t) eqn:E; auto.
  assert (Hs : is_Some (certificates s0 !! t)).
  { apply (Wf_exists_dom s0 t HW). destruct HF as (F1 & _). unfold _exists in *. rewrite <- F1. exact E. }
  apply Frame_update_cert_r; auto. apply Frame_update_cert_r; auto.
Qed.

(** Reads after [nonReentrant] sets its flag see the storage unchanged. *)
Lemma cfg_set_entered b s : cfg (set_entered b s) = cfg s.
Proof. reflexivity. Qed.
Lemma nextTokenId_set_entered b s : nextTokenId (set_entered b s) = nextTokenId s.
Proof. reflexivity. Qed.
Lemma certificates_set_entered b s : certificates (set_entered b s) = certificates s.
Proof. reflexivity. Qed.
Lemma userCertificates_set_entered b s : userCertificates (set_entered b s) = userCertificates s.
Proof. reflexivity. Qed.
Lemma usedPaymentHashes_set_entered b s : usedPaymentHashes (set_entered b s) = usedPaymentHashes s.
Proof. reflexivity. Qed.
Lemma certificateCourseExists_set_entered b s :
  certificateCourseExists (set_entered b s) = certificateCourseExists s.
Proof. reflexivity. Qed.
Lemma courseCertificatePrices_set_entered b s :
  courseCertificatePrices (set_entered b s) = courseCertificatePrices s.
Proof. reflexivity. Qed.
Lemma userCert_set_entered b s u : userCert (set_entered b s) u = userCert s u.
Proof. reflexivity. Qed.
Lemma cert_at_set_entered b s t : cert_at (set_entered b s) t = cert_at s t.
Proof. reflexivity. Qed.
Lemma exists_set_entered b s t : _exists (set_entered b s) t = _exists s t.
Proof. reflexivity. Qed.

Create Rewrite HintDb st.
#[export] Hint Rewrite cfg_set_entered nextTokenId_set_entered certificates_set_entered
  userCertificates_set_entered usedPaymentHashes_set_entered
  certificateCourseExists_set_entered courseCertificatePrices_set_entered
  userCert_set_entered cert_at_set_entered exists_set_entered : st.

Lemma entered_batch l r ts x :
  entered (batchUpdateBaseRoute_state l r ts x) = entered x.
Proof.
  unfold batchUpdateBaseRoute_state. revert x. induction l as [|t l IH]; intros x; cbn; auto.
  rewrite IH. destruct (_exists x t); reflexivity.
Qed.

Ltac norm_hyps :=
  repeat match goal with
  | H : negb _ = true |- _ => apply negb_true_iff in H
  | H : negb _ = false |- _ => apply negb_false_iff in H
  | H : (_ =? _) = true |- _ => apply Z.eqb_eq in H
  | H : (_ =? _) = false |- _ => apply Z.eqb_neq in H
  | H : (_ <? _) = true |- _ => apply Z.ltb_lt in H
  | H : (_ <? _) = false |- _ => apply Z.ltb_ge in H
  | H : (_ <=? _) = true |- _ => apply Z.leb_le in H
  | H : (_ <=? _) = false |- _ => apply Z.leb_gt in H
  | H : bool_decide _ = true |- _ => apply bool_decide_eq_true in H
  | H : bool_decide _ = false |- _ => apply bool_decide_eq_false in H
  | H : (_ && _) = true |- _ => apply andb_true_iff in H; destruct H
  | H : (_ || _) = false |- _ => apply orb_false_iff in H; destruct H
  end.

Ltac wp_step :=
  lazymatch goal with
  | |- wp (_processCertificatePayment _ _) _ _ _ => apply wp_processCertificatePayment
  | |- wp (_processPayment _ _) _ _ _ => apply wp_processPayment
  | |- wp (validateCourses _ _) _ _ _ => apply wp_validateCourses
  | |- wp (addCourses _ _) _ _ _ => apply wp_addCourses
  | |- wp (batchUpdateBaseRouteLoop _ _) _ _ _ => apply wp_batchUpdateBaseRouteLoop
  | |- wp (erc1155_move _ _ _ _) _ _ _ => cbn [erc1155_move]; unfold revert_if, checked_add
  | _ => wp_core
  end.

Ltac wp_go :=
  unfold _mintFirstCertificate, _addCourseToExistingCertificate, _mint,
    _updateWithAcceptanceCheck, _update, erc1155_update;
  wp_unfold; repeat wp_step.

Ltac frame_r :=
  repeat first
    [ apply Frame_refl
    | apply Frame_set_entered_r | apply Frame_set_trace_r | apply Frame_set_cfg_r
    | apply Frame_set_tokenURIs_r | apply Frame_set_certificateCourseExists_r
    | apply Frame_set_courseCertificatePrices_r
    | apply Frame_set_certificateCourseCompletionDate_r
    | apply Frame_set_operatorApprovals_r | apply Frame_set_balances_r
    | apply Frame_set_used_r | apply Frame_update_cert_r | apply Frame_addCourses_r
    | apply Frame_batch_r; [assumption|] ].

Ltac side :=
  first [ assumption | intros; reflexivity
        | eapply Wf_exists_dom; [eassumption | eassumption]
        | eapply Wf_userCert_dom; [eassumption | eassumption] ].

Lemma Minted_set_entered_r u s0 x b : Minted u s0 x -> Minted u s0 (set_entered b x).
Proof. auto. Qed.
Lemma Minted_set_trace_r u s0 x f : Minted u s0 x -> Minted u s0 (set_trace f x).
Proof. auto. Qed.
Lemma Minted_set_balances_r u s0 x f : Minted u s0 x -> Minted u s0 (set_balances f x).
Proof. auto. Qed.
Lemma Minted_set_certificateCourseExists_r u s0 x f :
  Minted u s0 x -> Minted u s0 (set_certificateCourseExists f x).
Proof. auto. Qed.

Lemma Wf_userCert_zero s u : Wf s -> userCert s u = 0 -> userCertificates s !! u = None.
Proof.
  intros (W1 & W2 & W3 & _) H. unfold userCert in H.
  destruct (userCertificates s !! u) as [t|] eqn:E; auto. cbn in H. subst t.
  specialize (W3 _ _ E). assert (Hs : is_Some (owner_at s 0)) by (rewrite W3; eauto).
  apply W2 in Hs. lia.
Qed.

(** The storage writes of [_mintFirstCertificate] up to [_mint] create one record. *)
Lemma Minted_core s s1 u c h n n1 :
  Wf s -> userCert s u = 0 -> h <> 0 -> recipientAddress c = u ->
  n = nextTokenId s -> n1 = n + 1 -> userCertificates s1 = userCertificates s ->
  certificates s1 = certificates s -> usedPaymentHashes s1 = usedPaymentHashes s ->
  Minted u s (set_userCertificates <[u := n]>
    (set_certificates <[n := c]>
      (set_usedPaymentHashes (union {[h]}) (set_nextTokenId n1 s1)))).
Proof.
  intros HW Hu Hh Hc -> -> E2 E3 E4. pose proof (Wf_userCert_zero s u HW Hu) as HN.
  unfold Minted, owner_at; cbn. rewrite E2, E3, E4.
  split; [reflexivity|]. split; [exact HN|].
  split; [reflexivity|]. split; [|split; set_solver].
  intros k. destruct (decide (k = nextTokenId s)) as [->|Hne].
  - rewrite lookup_insert_eq. cbn. congruence.
  - rewrite lookup_insert_ne by congruence. reflexivity.
Qed.

Lemma Wf_Minted u s s' : Wf s -> Minted u s s' -> Wf s'.
Proof.
  intros (W1 & W2 & W3 & W4 & W5) (M1 & M2 & M3 & M4 & M5 & M6).
  assert (Hn : owner_at s (nextTokenId s) = None).
  { destruct (owner_at s (nextTokenId s)) eqn:E; auto.
    assert (Hs : is_Some (owner_at s (nextTokenId s))) by (rewrite E; eauto).
    apply W2 in Hs. lia. }
  split; [lia|]. split; [|split; [|split]].
  - intros t. rewrite M4, M1. destruct (decide (t = nextTokenId s)) as [->|Hne].
    + split; [lia|eauto].
    + rewrite W2. lia.
  - intros u' t H. rewrite M3 in H. rewrite M4.
    destruct (decide (u' = u)) as [->|Hne].
    + rewrite lookup_insert_eq in H. injection H as <-. rewrite decide_True by reflexivity. reflexivity.
    + rewrite lookup_insert_ne in H by congruence. pose proof (W3 _ _ H) as Ho.
      destruct (decide (t = nextTokenId s)) as [->|]; [congruence|exact Ho].
  - intros t u' H. rewrite M4 in H. rewrite M3.
    destruct (decide (t = nextTokenId s)) as [->|Hne].
    + injection H as <-. apply lookup_insert_eq.
    + pose proof (W4 _ _ H) as Hu. rewrite lookup_insert_ne; [exact Hu|].
      intros ->. congruence.
  - intros H0. apply W5, M6, H0.
Qed.

Ltac minted_r :=
  repeat first
    [ apply Minted_set_entered_r | apply Minted_set_trace_r | apply Minted_set_balances_r
    | apply Minted_set_certificateCourseExists_r ];
  eapply Minted_core; [eassumption | eassumption | eassumption | reflexivity
                     | reflexivity | reflexivity | reflexivity | reflexivity | reflexivity].

(** Every ERC-1155 transfer entry point reverts. *)
Lemma safeTransferFrom_reverts from to id value env s :
  exists e, safeTransferFrom from to id value env s = Revert e.
Proof.
  unfold safeTransferFrom, _updateWithAcceptanceCheck, _update, revert_if.
  unfold mbind, M_bind, mret, M_ret, ask, get, revert.
  repeat (cbn; first [eexists; reflexivity
                     | match goal with |- context [if ?b then _ else _] => destruct b end]).
Qed.

Lemma safeBatchTransferFrom_reverts from to ids values env s :
  exists e, safeBatchTransferFrom from to ids values env s = Revert e.
Proof.
  unfold safeBatchTransferFrom, _updateWithAcceptanceCheck, _update, revert_if.
  unfold mbind, M_bind, mret, M_ret, ask, get, revert.
  repeat (cbn; first [eexists; reflexivity
                     | match goal with |- context [if ?b then _ else _] => destruct b end]).
Qed.

(** Every successful call either creates no certificate or mints exactly one. *)
Lemma step_inv c env s :
  Wf s -> entered s = false ->
  wp (dispatch c) (fun _ s' => entered s' = false /\ (Frame s s' \/ exists u, Minted u s s')) env s.
Proof.
  intros HW HE. destruct c; cbn [dispatch];
    try (unfold wp; match goal with
         | |- context [safeTransferFrom ?f ?t ?i ?v env s] =>
             destruct (safeTransferFrom_reverts f t i v env s) as [? ->]; exact I
         | |- context [safeBatchTransferFrom ?f ?t ?i ?v env s] =>
             destruct (safeBatchTransferFrom_reverts f t i v env s) as [? ->]; exact I
         end);
    unfold mintOrUpdateCertificate, updateCertificate, addMultipleCoursesToCertificate,
      setDefaultCertificateFee, setDefaultCourseAdditionFee, setPlatformWallet,
      setDefaultPlatformName, setCourseCertificatePrice, setTokenURI, updateBaseRoute,
      updateDefaultBaseRoute, updateDefaultMetadataBaseURI, batchUpdateBaseRoute,
      revokeCertificate, pause, unpause, transferOwnership, renounceOwnership,
      setApprovalForAll, safeTransferFrom, safeBatchTransferFrom.
  all: wp_go; norm_hyps; try congruence; autorewrite with st in *.
  all: try (split; [cbn; rewrite ?entered_batch; first [reflexivity | assumption] |]).
  all: try (left; frame_r; side).
  all: try (right; eexists; minted_r).
Qed.

Lemma Wf_initialState deployer pw br pn : Wf (initialState deployer pw br pn).
Proof.
  unfold Wf, owner_at; cbn. split; [lia|]. split; [|split; [|split]].
  - intros t. rewrite lookup_empty. cbn. split; [intros []; discriminate | lia].
  - intros u t H. rewrite lookup_empty in H. discriminate.
  - intros t u H. rewrite lookup_empty in H. discriminate.
  - set_solver.
Qed.

Lemma reachable_inv s : reachable s -> Wf s /\ entered s = false.
Proof.
  induction 1 as [deployer cf pt cl pw br pn s H | env c s _ [HW HE]].
  - unfold constructor in H.
    repeat match goal with H : context [if ?b then _ else _] |- _ => destruct b end;
      try discriminate.
    injection H as <-. split; [apply Wf_initialState | reflexivity].
  - pose proof (step_inv c env s HW HE) as Hs. unfold wp, post in *.
    destruct (dispatch c env s) as [[] s'|e]; [|auto].
    destruct Hs as [HE' [HF | [u HM]]]; split; auto.
    + eapply Wf_Frame; eauto.
    + eapply Wf_Minted; eauto.
Qed.

Lemma post_cases env c s :
  reachable s -> Frame s (post env c s) \/ exists u, Minted u s (post env c s).
Proof.
  intros HR. destruct (reachable_inv s HR) as [HW HE].
  pose proof (step_inv c env s HW HE) as Hs. unfold wp, post in *.
  destruct (dispatch c env s) as [[] s'|e].
  - destruct Hs as [_ H]. exact H.
  - left. apply Frame_refl.
Qed.

Lemma used_mono env c s :
  reachable s -> usedPaymentHashes s ⊆ usedPaymentHashes (post env c s).
Proof.
  intros HR. destruct (post_cases env c s HR) as [(_ & _ & _ & H & _) | [u (_ & _ & _ & _ & H & _)]];
    exact H.
Qed.

Lemma used_addCourses t l x : usedPaymentHashes (addCourses_state t l x) = usedPaymentHashes x.
Proof.
  unfold addCourses_state. revert x. induction l as [|c l IH]; intros x; cbn; auto.
  rewrite IH. reflexivity.
Qed.

Lemma trace_addCourses t l x : trace (addCourses_state t l x) = trace x.
Proof.
  unfold addCourses_state. revert x. induction l as [|c l IH]; intros x; cbn; auto.
  rewrite IH. reflexivity.
Qed.

Lemma certificates_addCourses_other t l x k :
  k <> t -> certificates (addCourses_state t l x) !! k = certificates x !! k.
Proof.
  intros Hk. unfold addCourses_state. revert x. induction l as [|c l IH]; intros x; cbn; auto.
  rewrite IH. cbn. rewrite lookup_insert_ne by congruence. reflexivity.
Qed.

Lemma trace_batch l r ts x : trace (batchUpdateBaseRoute_state l r ts x) = trace x.
Proof.
  unfold batchUpdateBaseRoute_state. revert x. induction l as [|t l IH]; intros x; cbn; auto.
  rewrite IH. destruct (_exists x t); reflexivity.
Qed.

(** The three paying entry points write the identifier they present, which
    must not have been used before. *)
Lemma consume_wp c X env s :
  consumes c = Some X ->
  wp (dispatch c) (fun _ s' => (X ∉ usedPaymentHashes s) /\ (X ∈ usedPaymentHashes s')) env s.
Proof.
  intros Hc. destruct c; cbn in Hc; try discriminate; injection Hc as <-; cbn [dispatch];
    unfold mintOrUpdateCertificate, updateCertificate, addMultipleCoursesToCertificate.
  all: wp_go; norm_hyps; try congruence; autorewrite with st in *.
  all: split; [assumption|].
  all: cbn [usedPaymentHashes set_entered set_trace set_certificates set_userCertificates
    set_usedPaymentHashes set_nextTokenId set_certificateCourseExists
    set_certificateCourseCompletionDate set_balances update_cert].
  all: rewrite ?used_addCourses; cbn; set_solver.
Qed.

Lemma successes_consuming_cons X c ok outs :
  successes_consuming X ((c, ok) :: outs) =
  ((if ok && bool_decide (consumes c = Some X) then 1 else 0) + successes_consuming X outs)%nat.
Proof. unfold successes_consuming. cbn. destruct (ok && _); reflexivity. Qed.

Lemma reachable_s0 : reachable s0.
Proof. apply (reachable_init 1 2 3 4 99 "https://x" "EduVerse"). reflexivity. Qed.

Lemma reachable_s1 : reachable s1.
Proof. apply reachable_step, reachable_s0. Qed.

Lemma reachable_run s txs : reachable s -> reachable (fst (run s txs)).
Proof.
  revert s. induction txs as [|[env c] rest IH]; intros s HR; cbn [run]; [exact HR|].
  pose proof (IH (post env c s) (reachable_step env c s HR)) as H.
  destruct (run (post env c s) rest). exact H.
Qed.

(** ** C1: payment replay *)

(** A call presenting a consumed identifier, made at the top level of a
    transaction while the contract is not paused, and passing the checks
    before the replay check, reverts with PaymentHashAlreadyUsed. *)
Lemma replay_check_fires c X env s :
  Wf s -> entered s = false -> paused_ (cfg s) = false ->
  consumes c = Some X -> X ∈ usedPaymentHashes s -> before_replay_check c = true ->
  dispatch c env s = Revert PaymentHashAlreadyUsed.
Proof.
  intros HW HE HP Hc HX Hb.
  assert (HX0 : (X =? 0) = false).
  { apply Z.eqb_neq. intros ->. destruct HW as (_ & _ & _ & _ & H0). contradiction. }
  assert (HXb : bool_decide (X ∈ usedPaymentHashes s) = true) by (apply bool_decide_eq_true; exact HX).
  assert (Hn : forall ids : list Z, (length ids =? 0)%nat = false ->
            (length ids =? 0)%nat = false) by auto.
  destruct c; cbn [consumes] in Hc; try discriminate; injection Hc as <-;
    cbv beta iota zeta delta [before_replay_check] in Hb;
    [| |apply andb_true_iff in Hb as [Hb Hl]; apply negb_true_iff in Hl; specialize (Hn _ Hl)];
    apply negb_true_iff in Hb; cbn [dispatch];
    cbv beta iota zeta delta [mintOrUpdateCertificate updateCertificate
      addMultipleCoursesToCertificate nonReentrant whenNotPaused validStringLength revert_if
      mbind M_bind mret M_ret get ask modify revert set_entered];
    do 6 (cbn [cfg entered usedPaymentHashes]; rewrite ?HE, ?HP, ?Hb, ?Hn, ?HX0, ?HXb);
    reflexivity.
Qed.

Lemma run_used s txs X :
  reachable s ->
  ((0 < successes_consuming X (snd (run s txs)))%nat \/ X ∈ usedPaymentHashes s) ->
  X ∈ usedPaymentHashes (fst (run s txs)).
Proof.
  revert s. induction txs as [|[env c] rest IH]; intros s HR Hin; cbn [run] in *.
  - destruct Hin as [Hlt|Hin]; [cbn in Hlt; unfold successes_consuming in Hlt; cbn in Hlt; lia|exact Hin].
  - specialize (IH (post env c s) (reachable_step env c s HR)).
    destruct (run (post env c s) rest) as [s' outs] eqn:Erun. cbn [fst snd] in *.
    apply IH. rewrite successes_consuming_cons in Hin.
    pose proof (used_mono env c s HR) as Hmono.
    destruct (succeeds env c s && bool_decide (consumes c = Some X)) eqn:E.
    + right. apply andb_true_iff in E as [Hok Hc]. apply bool_decide_eq_true in Hc.
      pose proof (consume_wp c X env s Hc) as Hw. unfold wp, succeeds, post in *.
      destruct (dispatch c env s) as [[] s2|e]; [|discriminate]. apply Hw.
    + destruct Hin as [Hlt|Hin]; [left; lia|right; set_solver].
Qed.

(** C1.  From any reachable state, over any sequence of transactions, at most
    one successful call of mintOrUpdateCertificate, updateCertificate or
    addMultipleCoursesToCertificate presents the payment identifier [X], and
    none does when [X] was already consumed.  Once [X] is consumed (before
    the run or by a call of it), every later call presenting [X] that is made
    while the contract is not paused and passes the checks before the replay
    check (content reference of 1 to 2000 characters, a non-empty batch)
    fails with PaymentHashAlreadyUsed. *)
Theorem payment_identifier_consumed_once s txs X :
  reachable s ->
  (successes_consuming X (snd (run s txs)) <=
     if bool_decide (X ∈ usedPaymentHashes s) then 0 else 1)%nat /\
  (((0 < successes_consuming X (snd (run s txs)))%nat \/ X ∈ usedPaymentHashes s) ->
     X ∈ usedPaymentHashes (fst (run s txs))) /\
  (forall env c,
     X ∈ usedPaymentHashes (fst (run s txs)) ->
     consumes c = Some X -> paused_ (cfg (fst (run s txs))) = false ->
     before_replay_check c = true ->
     dispatch c env (fst (run s txs)) = Revert PaymentHashAlreadyUsed).
Proof.
  intros HR0. split; [|split].
  - clear -HR0. revert s HR0. induction txs as [|[env c] rest IH]; intros s HR; cbn [run].
    + cbn. unfold successes_consuming. cbn. destruct (bool_decide _); lia.
    + destruct (run (post env c s) rest) as [s' outs] eqn:Erun. cbn [snd].
      rewrite successes_consuming_cons.
      specialize (IH (post env c s) (reachable_step env c s HR)).
      rewrite Erun in IH. cbn [snd] in IH.
      pose proof (used_mono env c s HR) as Hmono.
      destruct (succeeds env c s && bool_decide (consumes c = Some X)) eqn:E.
      * apply andb_true_iff in E as [Hok Hc]. apply bool_decide_eq_true in Hc.
        pose proof (consume_wp c X env s Hc) as Hw. unfold wp, succeeds, post in *.
        destruct (dispatch c env s) as [[] s2|e]; [|discriminate].
        destruct Hw as [Hn Hin].
        rewrite (bool_decide_eq_true_2 _ Hin) in IH. rewrite (bool_decide_eq_false_2 _ Hn). lia.
      * destruct (bool_decide (X ∈ usedPaymentHashes s)) eqn:Hs.
        -- apply bool_decide_eq_true in Hs.
           rewrite (bool_decide_eq_true_2 (X ∈ usedPaymentHashes (post env c s))) in IH
             by set_solver. lia.
        -- destruct (bool_decide (X ∈ usedPaymentHashes (post env c s))); lia.
  - apply run_used, HR0.
  - intros env c HX Hc HP Hb.
    destruct (reachable_inv _ (reachable_run s txs HR0)) as [HW HE].
    apply (replay_check_fires c X); assumption.
Qed.

Lemma payment_identifier_consumed_once_witness :
  reachable s0 /\
  (successes_consuming 11 (snd (run s0 [(env_of 7 (10 ^ 15), MintOrUpdateCertificate 5 "Ann" "cid1" 11 "")]))
     <= if bool_decide (11%Z ∈ usedPaymentHashes s0) then 0 else 1)%nat /\
  (((0 < successes_consuming 11 (snd (run s0 [(env_of 7 (10 ^ 15), MintOrUpdateCertificate 5 "Ann" "cid1" 11 "")])))%nat
      \/ 11%Z ∈ usedPaymentHashes s0) ->
     11%Z ∈ usedPaymentHashes (fst (run s0 [(env_of 7 (10 ^ 15), MintOrUpdateCertificate 5 "Ann" "cid1" 11 "")]))) /\
  (forall env c,
     11%Z ∈ usedPaymentHashes (fst (run s0 [(env_of 7 (10 ^ 15), MintOrUpdateCertificate 5 "Ann" "cid1" 11 "")])) ->
     consumes c = Some 11 ->
     paused_ (cfg (fst (run s0 [(env_of 7 (10 ^ 15), MintOrUpdateCertificate 5 "Ann" "cid1" 11 "")]))) = false ->
     before_replay_check c = true ->
     dispatch c env (fst (run s0 [(env_of 7 (10 ^ 15), MintOrUpdateCertificate 5 "Ann" "cid1" 11 "")]))
       = Revert PaymentHashAlreadyUsed).
Proof.
  split; [apply reachable_s0|].
  apply (payment_identifier_consumed_once s0 _ 11). apply reachable_s0.
Defined.

(** C1, the error reported: after [s1] consumed identifier 11, an empty batch
    presenting 11 fails with EmptyCoursesArray, not PaymentHashAlreadyUsed. *)
Example payment_replay_error_not_PaymentHashAlreadyUsed :
  bool_decide (11 ∈ usedPaymentHashes s1) = true /\
  dispatch (AddMultipleCoursesToCertificate [] "cid2" 11) (env_of 7 (10 ^ 14)) s1 =
    Revert EmptyCoursesArray.
Proof. split; vm_compute; reflexivity. Qed.

Lemma map_leg_snapshots s legs : map leg (snapshots s legs) = legs.
Proof.
  unfold snapshots. rewrite map_map. induction legs as [|[to a] legs IH]; cbn; congruence.
Qed.

Lemma cert_at_update_cert_eq x t f : cert_at (update_cert t f x) t = f (cert_at x t).
Proof. unfold cert_at, update_cert. cbn. rewrite lookup_insert_eq. reflexivity. Qed.

Lemma update_cert_update_cert t f g x :
  update_cert t g (update_cert t f x) = update_cert t (fun c => g (f c)) x.
Proof.
  unfold update_cert at 1. rewrite cert_at_update_cert_eq.
  unfold update_cert, set_certificates.
  cbn [cfg entered nextTokenId certificates userCertificates usedPaymentHashes tokenURIs
    certificateCourseExists courseCertificatePrices certificateCourseCompletionDate balances
    operatorApprovals trace].
  rewrite insert_insert_eq. reflexivity.
Qed.

Lemma append_course_wp courseId rn cid h br env s :
  entered s = false -> userCert s (msg_sender env) <> 0 ->
  wp (mintOrUpdateCertificate courseId rn cid h br) (fun _ s' => AppendEffects env courseId cid h s s') env s.
Proof.
  intros HE Hu. unfold mintOrUpdateCertificate. wp_go; norm_hyps; try congruence; autorewrite with st in *; try congruence.
  all: rewrite !update_cert_update_cert.
  all: unfold AppendEffects; repeat split; try assumption; try reflexivity.
  all: try (match goal with |- context [if ?b then _ else _] => destruct b eqn:? end; norm_hyps; try lia; reflexivity).
  all: do 3 eexists; split;
    [ cbv beta iota zeta delta [getCourseCertificatePrice mbind M_bind get mret M_ret];
      match goal with |- context [if ?b then _ else _] => destruct b eqn:? end; norm_hyps; try lia; reflexivity
    | ].
  all: split; [assumption|]; split; [eassumption|]; split; [reflexivity|apply map_leg_snapshots].
Qed.

(** ** C2: one record per principal *)

Lemma mint_by_owner_frame courseId rn cid h br env s :
  Wf s -> userCert s (msg_sender env) <> 0 ->
  wp (mintOrUpdateCertificate courseId rn cid h br) (fun _ s' => Frame s s') env s.
Proof.
  intros HW Hu. unfold mintOrUpdateCertificate. wp_go; norm_hyps; try congruence;
    autorewrite with st in *; try congruence.
  all: frame_r; side.
Qed.

(** The CertificateAlreadyExists check of _mintFirstCertificate cannot fire
    from mintOrUpdateCertificate: that path is only taken when the caller's
    index entry is 0, and nothing in between writes the index. *)
Lemma mint_never_already_exists courseId rn cid h br env s :
  mintOrUpdateCertificate courseId rn cid h br env s <> Revert CertificateAlreadyExists.
Proof.
  enough (H : wpe (mintOrUpdateCertificate courseId rn cid h br) (fun _ _ => True)
                (fun e => e <> CertificateAlreadyExists) env s).
  { unfold wpe in H. destruct (mintOrUpdateCertificate courseId rn cid h br env s);
      [discriminate|congruence]. }
  unfold mintOrUpdateCertificate, _mintFirstCertificate, _addCourseToExistingCertificate,
    _mint, _updateWithAcceptanceCheck, _update, erc1155_update,
    _processCertificatePayment, _processPayment.
  wp_unfold.
  repeat wpe_core; try exact I; try discriminate.
  all: norm_hyps; congruence.
Qed.

(** A mintOrUpdateCertificate call by a principal that owns a record, when it
    succeeds, pushes the course onto that record's course list. *)
Lemma mint_by_owner_appends courseId rn cid h br env s :
  entered s = false -> userCert s (msg_sender env) <> 0 ->
  wp (mintOrUpdateCertificate courseId rn cid h br)
     (fun _ s' => completedCourses (cert_at s' (userCert s (msg_sender env))) =
                  completedCourses (cert_at s (userCert s (msg_sender env))) ++ [courseId]) env s.
Proof.
  intros HE Hu. eapply wp_conseq; [apply (append_course_wp courseId rn cid h br env s HE Hu)|].
  intros a s' HA. cbv beta in HA. unfold AppendEffects in HA. cbv zeta in HA.
  destruct HA as (_ & _ & _ & _ & _ & _ & _ & _ & _ & _ & Hc & _).
  unfold cert_at at 1. rewrite Hc, lookup_insert_eq. reflexivity.
Qed.

(** C2.  In every reachable state a principal owns at most one certificate
    record.  No mintOrUpdateCertificate call fails with
    CertificateAlreadyExists.  A call by a principal that already owns a
    record creates no record (the token counter, the user index and the owner
    of every record are unchanged) and, when it succeeds, adds the course to
    the end of that record's course list. *)
Theorem one_record_per_principal s :
  reachable s ->
  (forall P t1 t2, owner_at s t1 = Some P -> owner_at s t2 = Some P -> t1 = t2) /\
  (forall env courseId rn cid h br,
     dispatch (MintOrUpdateCertificate courseId rn cid h br) env s <>
       Revert CertificateAlreadyExists) /\
  (forall env courseId rn cid h br,
     userCert s (msg_sender env) <> 0 ->
     Frame s (post env (MintOrUpdateCertificate courseId rn cid h br) s) /\
     (succeeds env (MintOrUpdateCertificate courseId rn cid h br) s = true ->
      completedCourses (cert_at (post env (MintOrUpdateCertificate courseId rn cid h br) s)
                          (userCert s (msg_sender env))) =
        completedCourses (cert_at s (userCert s (msg_sender env))) ++ [courseId])).
Proof.
  intros HR. destruct (reachable_inv s HR) as [HW HE]. split; [|split].
  - intros P t1 t2 H1 H2. destruct HW as (_ & _ & _ & W4 & _).
    pose proof (W4 _ _ H1) as E1. pose proof (W4 _ _ H2) as E2. congruence.
  - intros env courseId rn cid h br. cbn [dispatch]. apply mint_never_already_exists.
  - intros env courseId rn cid h br Hu. split.
    + pose proof (mint_by_owner_frame courseId rn cid h br env s HW Hu) as Hw.
      unfold wp, post in *. cbn [dispatch]. destruct (mintOrUpdateCertificate _ _ _ _ _ env s).
      * exact Hw.
      * apply Frame_refl.
    + intros Hok. pose proof (mint_by_owner_appends courseId rn cid h br env s HE Hu) as Hw.
      unfold wp, post, succeeds in *. cbn [dispatch] in *.
      destruct (mintOrUpdateCertificate _ _ _ _ _ env s); [exact Hw|discriminate].
Qed.

Lemma one_record_per_principal_witness :
  reachable s1 /\
  (forall P t1 t2, owner_at s1 t1 = Some P -> owner_at s1 t2 = Some P -> t1 = t2) /\
  (forall env courseId rn cid h br,
     dispatch (MintOrUpdateCertificate courseId rn cid h br) env s1 <>
       Revert CertificateAlreadyExists) /\
  (forall env courseId rn cid h br,
     userCert s1 (msg_sender env) <> 0 ->
     Frame s1 (post env (MintOrUpdateCertificate courseId rn cid h br) s1) /\
     (succeeds env (MintOrUpdateCertificate courseId rn cid h br) s1 = true ->
      completedCourses (cert_at (post env (MintOrUpdateCertificate courseId rn cid h br) s1)
                          (userCert s1 (msg_sender env))) =
        completedCourses (cert_at s1 (userCert s1 (msg_sender env))) ++ [courseId])).
Proof.
  split; [apply reachable_s1|]. apply (one_record_per_principal s1). apply reachable_s1.
Defined.

(** C2, the error: principal 7 already owns certificate 1, yet a second
    mintOrUpdateCertificate call succeeds (adding course 7 to certificate 1)
    instead of failing with CertificateAlreadyExists. *)
Example second_mint_does_not_fail :
  userCert s1 7 = 1 /\
  succeeds (env_of 7 (10 ^ 15)) (MintOrUpdateCertificate 7 "Ann" "cid2" 12 "") s1 = true /\
  completedCourses (cert_at (post (env_of 7 (10 ^ 15))
     (MintOrUpdateCertificate 7 "Ann" "cid2" 12 "") s1) 1) = [5; 7].
Proof. split; [|split]; vm_compute; reflexivity. Qed.

(** ** C3: duplicate courses *)

(** C3.  From the reachable state [s1] (certificate 1 of principal 7 holds
    course 5), addMultipleCoursesToCertificate with the course list [9; 9]
    succeeds and leaves course 9 twice in the record: the validation loop only
    checks the stored membership index, never the batch against itself. *)
Theorem batch_appends_duplicate_course :
  reachable s1 /\
  exists s',
    dispatch (AddMultipleCoursesToCertificate [9; 9] "cid2" 12) (env_of 7 (2 * 10 ^ 14)) s1
      = Ok tt s' /\
    completedCourses (cert_at s' 1) = [5; 9; 9] /\
    ~ NoDup (completedCourses (cert_at s' 1)).
Proof.
  split; [apply reachable_s1|].
  exists (post (env_of 7 (2 * 10 ^ 14)) (AddMultipleCoursesToCertificate [9; 9] "cid2" 12) s1).
  assert (E : completedCourses (cert_at (post (env_of 7 (2 * 10 ^ 14))
      (AddMultipleCoursesToCertificate [9; 9] "cid2" 12) s1) 1) = [5; 9; 9])
    by (vm_compute; reflexivity).
  split; [vm_compute; reflexivity|]. split; [exact E|].
  rewrite E. intros Hd. inversion Hd as [|? ? Hn Hd']. inversion Hd' as [|? ? Hn' _].
  apply Hn'. left.
Qed.

(** ** C4: effects before interactions *)

Lemma settle_observes s x legs :
  trace x = trace s ->
  exists new, trace (set_entered false (set_trace (fun tr => tr ++ snapshots x legs) x))
                = trace s ++ new /\
              Forall (observes (set_entered false (set_trace (fun tr => tr ++ snapshots x legs) x))) new.
Proof.
  intros Ht. exists (snapshots x legs). split.
  - cbn. rewrite Ht. reflexivity.
  - unfold snapshots. clear Ht.
    induction legs as [|[to a] legs IH]; cbn; constructor; [repeat split | exact IH].
Qed.

(** C4.  Every successful call appends to the transfer log only legs that
    observed the replay guard, the certificate store, the user index and the
    course-membership index exactly as the call leaves them: all writes to
    them precede the first value transfer of the settlement. *)
Theorem transfers_observe_final_state c env s s' :
  dispatch c env s = Ok tt s' ->
  exists new, trace s' = trace s ++ new /\ Forall (observes s') new.
Proof.
  intros Hd.
  assert (Hw : wp (dispatch c)
    (fun _ s' => exists new, trace s' = trace s ++ new /\ Forall (observes s') new) env s).
  { destruct c; cbn [dispatch];
      try (unfold wp; match goal with
           | |- context [safeTransferFrom ?f ?t ?i ?v env s] =>
               destruct (safeTransferFrom_reverts f t i v env s) as [? ->]; exact I
           | |- context [safeBatchTransferFrom ?f ?t ?i ?v env s] =>
               destruct (safeBatchTransferFrom_reverts f t i v env s) as [? ->]; exact I
           end);
      unfold mintOrUpdateCertificate, updateCertificate, addMultipleCoursesToCertificate,
        setDefaultCertificateFee, setDefaultCourseAdditionFee, setPlatformWallet,
        setDefaultPlatformName, setCourseCertificatePrice, setTokenURI, updateBaseRoute,
        updateDefaultBaseRoute, updateDefaultMetadataBaseURI, batchUpdateBaseRoute,
        revokeCertificate, pause, unpause, transferOwnership, renounceOwnership,
        setApprovalForAll.
    all: wp_go.
    all: first
      [ apply settle_observes; cbn; rewrite ?trace_addCourses; reflexivity
      | exists []; rewrite app_nil_r; split; [cbn; rewrite ?trace_batch; reflexivity | constructor] ]. }
  unfold wp in Hw. rewrite Hd in Hw. exact Hw.
Qed.

Lemma transfers_observe_final_state_witness :
  dispatch (MintOrUpdateCertificate 5 "Ann" "cid1" 11 "") (env_of 7 (10 ^ 15)) s0 = Ok tt s1 /\
  exists new, trace s1 = trace s0 ++ new /\ Forall (observes s1) new.
Proof.
  assert (H : dispatch (MintOrUpdateCertificate 5 "Ann" "cid1" 11 "") (env_of 7 (10 ^ 15)) s0
              = Ok tt s1) by (vm_compute; reflexivity).
  split; [exact H|]. exact (transfers_observe_final_state _ _ _ _ H).
Defined.

(** ** C5: settlement conservation *)

Lemma paid_settlementLegs bps platform recipient R v sender :
  0 <= bps <= 10000 -> 0 <= R ->
  paid (settlementLegs bps platform recipient R v sender) =
    R + (if R <? v then v - R else 0).
Proof.
  intros Hb HR. unfold settlementLegs.
  assert (H1 : 0 <= R * bps / 10000) by (apply Z.div_pos; nia).
  assert (H2 : R * bps / 10000 <= R) by (apply Z.div_le_upper_bound; nia).
  revert H1 H2. generalize (R * bps / 10000). intros pf H1 H2.
  destruct (Z.ltb_spec 0 pf), (Z.ltb_spec 0 (R - pf)), (Z.ltb_spec R v); cbn; lia.
Qed.

(** C5.  A successful settlement of required amount [R] with fee percent 10
    (_processCertificatePayment, 1000 basis points) or 2 (_processPayment, 200
    basis points) appends exactly the legs of [settlementLegs]: the platform
    share [R * F / 100] rounded down, the payee share [R] minus it, and the
    refund [msg.value - R] to the payer exactly when [msg.value > R]; the legs
    pay out [R] plus that refund, nothing more and nothing less. *)
Theorem settlement_conservation recipient R env s s' :
  0 <= R ->
  (_processCertificatePayment recipient R env s = Ok tt s' ->
   exists new, trace s' = trace s ++ new /\
     map leg new = settlementLegs 1000 (platformWallet (cfg s)) recipient R
                     (msg_value env) (msg_sender env) /\
     paid (map leg new) = R + (if R <? msg_value env then msg_value env - R else 0)) /\
  (_processPayment recipient R env s = Ok tt s' ->
   exists new, trace s' = trace s ++ new /\
     map leg new = settlementLegs 200 (platformWallet (cfg s)) recipient R
                     (msg_value env) (msg_sender env) /\
     paid (map leg new) = R + (if R <? msg_value env then msg_value env - R else 0)).
Proof.
  intros HR. split; intros Hok.
  - assert (Hw : wp (_processCertificatePayment recipient R) (fun _ s2 =>
       exists new, trace s2 = trace s ++ new /\
         map leg new = settlementLegs 1000 (platformWallet (cfg s)) recipient R
                         (msg_value env) (msg_sender env) /\
         paid (map leg new) = R + (if R <? msg_value env then msg_value env - R else 0)) env s).
    { apply wp_processCertificatePayment. eexists. split; [reflexivity|].
      rewrite map_leg_snapshots. split; [reflexivity|]. apply paid_settlementLegs; lia. }
    unfold wp in Hw. rewrite Hok in Hw. exact Hw.
  - assert (Hw : wp (_processPayment recipient R) (fun _ s2 =>
       exists new, trace s2 = trace s ++ new /\
         map leg new = settlementLegs 200 (platformWallet (cfg s)) recipient R
                         (msg_value env) (msg_sender env) /\
         paid (map leg new) = R + (if R <? msg_value env then msg_value env - R else 0)) env s).
    { apply wp_processPayment. eexists. split; [reflexivity|].
      rewrite map_leg_snapshots. split; [reflexivity|]. apply paid_settlementLegs; lia. }
    unfold wp in Hw. rewrite Hok in Hw. exact Hw.
Qed.

Lemma settlement_conservation_witness :
  0 <= 10 ^ 15 /\
  _processCertificatePayment 500 (10 ^ 15) (env_of 7 (2 * 10 ^ 15)) s0 =
     Ok tt (set_trace (fun tr => tr ++ snapshots s0
              [(99, 10 ^ 14); (500, 9 * 10 ^ 14); (7, 10 ^ 15)]) s0) /\
  (_processCertificatePayment 500 (10 ^ 15) (env_of 7 (2 * 10 ^ 15)) s0 =
     Ok tt (set_trace (fun tr => tr ++ snapshots s0
              [(99, 10 ^ 14); (500, 9 * 10 ^ 14); (7, 10 ^ 15)]) s0) ->
   exists new, trace (set_trace (fun tr => tr ++ snapshots s0
                 [(99, 10 ^ 14); (500, 9 * 10 ^ 14); (7, 10 ^ 15)]) s0) = trace s0 ++ new /\
     map leg new = settlementLegs 1000 (platformWallet (cfg s0)) 500 (10 ^ 15)
                     (msg_value (env_of 7 (2 * 10 ^ 15))) (msg_sender (env_of 7 (2 * 10 ^ 15))) /\
     paid (map leg new) = 10 ^ 15 + (if 10 ^ 15 <? msg_value (env_of 7 (2 * 10 ^ 15))
                                     then msg_value (env_of 7 (2 * 10 ^ 15)) - 10 ^ 15 else 0)).
Proof.
  split; [lia|]. split; [vm_compute; reflexivity|].
  apply (settlement_conservation 500 (10 ^ 15) (env_of 7 (2 * 10 ^ 15)) s0
           (set_trace (fun tr => tr ++ snapshots s0
              [(99, 10 ^ 14); (500, 9 * 10 ^ 14); (7, 10 ^ 15)]) s0)).
  lia.
Defined.

(** ** C6: price of an append *)

(** C6.  Without a per-course override, _getCertificatePrice resolves to
    defaultCertificateFee, also on the append path.  From [s1] (principal 7
    owns certificate 1, course 7 has no override) appending course 7 while
    attaching exactly defaultCourseAdditionFee (0.0001 ether) fails with
    InsufficientPayment: the append costs 0.001 ether. *)
Theorem append_price_is_certificate_fee :
  (forall courseId env s, courseCertificatePrices s !! courseId = None ->
     _getCertificatePrice courseId env s = Ok (defaultCertificateFee (cfg s)) s) /\
  reachable s1 /\ userCert s1 7 = 1 /\ courseCertificatePrices s1 !! 7 = None /\
  defaultCourseAdditionFee (cfg s1) = 10 ^ 14 /\ defaultCertificateFee (cfg s1) = 10 ^ 15 /\
  dispatch (MintOrUpdateCertificate 7 "Ann" "cid2" 12 "")
    (env_of 7 (defaultCourseAdditionFee (cfg s1))) s1 = Revert InsufficientPayment.
Proof.
  split.
  - intros courseId env s H. unfold _getCertificatePrice, mbind, M_bind, get, mret, M_ret.
    rewrite H. reflexivity.
  - split; [apply reachable_s1|]. repeat split; vm_compute; reflexivity.
Qed.

(** ** C7: atomic batch *)

Lemma wp_validateCourses_fail tokenId courseIds Q env s :
  (exists c, In c courseIds /\
     (isCourseCompleted env (msg_sender env) c = false \/
      (tokenId, c) ∈ certificateCourseExists s)) ->
  wp (validateCourses tokenId courseIds) Q env s.
Proof.
  revert s. induction courseIds as [|c rest IH]; intros s [c' [Hin Hbad]]; [destruct Hin|].
  cbn [validateCourses]. unfold revert_if. repeat wp_core; auto.
  norm_hyps. destruct Hin as [<-|Hin].
  - destruct Hbad as [Hb|Hb]; [congruence | contradiction].
  - apply IH. eauto.
Qed.

(** C7.  If some course of the batch is not completed by the caller or is
    already in the caller's certificate, addMultipleCoursesToCertificate
    reverts and the transaction leaves the storage as it was: no course is
    appended, the course count is unchanged and the payment identifier is
    not consumed. *)
Theorem batch_all_or_nothing courseIds cid h env s :
  (exists c, In c courseIds /\
     (isCourseCompleted env (msg_sender env) c = false \/
      (userCert s (msg_sender env), c) ∈ certificateCourseExists s)) ->
  (exists e, dispatch (AddMultipleCoursesToCertificate courseIds cid h) env s = Revert e) /\
  post env (AddMultipleCoursesToCertificate courseIds cid h) s = s.
Proof.
  intros Hbad.
  assert (Hw : wp (addMultipleCoursesToCertificate courseIds cid h) (fun _ _ => False) env s).
  { unfold addMultipleCoursesToCertificate. wp_unfold.
    repeat (lazymatch goal with
            | |- wp (validateCourses _ _) _ _ _ => apply wp_validateCourses_fail; exact Hbad
            | _ => wp_core
            end). }
  unfold wp, post in *. cbn [dispatch].
  destruct (addMultipleCoursesToCertificate courseIds cid h env s); [contradiction|eauto].
Qed.

Lemma batch_all_or_nothing_witness :
  (exists c, In c [9; 10] /\
     (isCourseCompleted (env_of 7 (2 * 10 ^ 14)) (msg_sender (env_of 7 (2 * 10 ^ 14))) c = false \/
      (userCert s1 (msg_sender (env_of 7 (2 * 10 ^ 14))), c) ∈ certificateCourseExists s1)) /\
  (exists e, dispatch (AddMultipleCoursesToCertificate [9; 10] "cid2" 12) (env_of 7 (2 * 10 ^ 14)) s1
               = Revert e) /\
  post (env_of 7 (2 * 10 ^ 14)) (AddMultipleCoursesToCertificate [9; 10] "cid2" 12) s1 = s1.
Proof.
  assert (H : exists c, In c [9; 10] /\
     (isCourseCompleted (env_of 7 (2 * 10 ^ 14)) (msg_sender (env_of 7 (2 * 10 ^ 14))) c = false \/
      (userCert s1 (msg_sender (env_of 7 (2 * 10 ^ 14))), c) ∈ certificateCourseExists s1)).
  { exists 10. split; [right; left; reflexivity | left; reflexivity]. }
  split; [exact H|]. apply (batch_all_or_nothing [9; 10] "cid2" 12 _ s1 H).
Defined.

(** ** C8: content refresh *)

Lemma cert_at_set_trace x f t : cert_at (set_trace f x) t = cert_at x t.
Proof. reflexivity. Qed.
Lemma cert_at_set_used x f t : cert_at (set_usedPaymentHashes f x) t = cert_at x t.
Proof. reflexivity. Qed.

(** C8.  A successful updateCertificate call is made by the owner of a valid
    certificate, attaches at least defaultCourseAdditionFee, leaves the
    course list and the course count unchanged, and settles
    defaultCourseAdditionFee through _processCertificatePayment with the
    platform wallet as payee: 10% and then the remaining 90% both go to the
    platform wallet, and only the refund (if any) goes elsewhere, to the
    caller. *)
Theorem update_certificate_effects t cid h env s s' :
  dispatch (UpdateCertificate t cid h) env s = Ok tt s' ->
  recipientAddress (cert_at s t) = msg_sender env /\
  isValid (cert_at s t) = true /\
  defaultCourseAdditionFee (cfg s) <= msg_value env /\
  completedCourses (cert_at s' t) = completedCourses (cert_at s t) /\
  totalCoursesCompleted (cert_at s' t) = totalCoursesCompleted (cert_at s t) /\
  exists new, trace s' = trace s ++ new /\
    map leg new = settlementLegs 1000 (platformWallet (cfg s)) (platformWallet (cfg s))
                    (defaultCourseAdditionFee (cfg s)) (msg_value env) (msg_sender env).
Proof.
  intros Hd.
  assert (Hw : wp (updateCertificate t cid h) (fun _ s2 =>
    recipientAddress (cert_at s t) = msg_sender env /\
    isValid (cert_at s t) = true /\
    defaultCourseAdditionFee (cfg s) <= msg_value env /\
    completedCourses (cert_at s2 t) = completedCourses (cert_at s t) /\
    totalCoursesCompleted (cert_at s2 t) = totalCoursesCompleted (cert_at s t) /\
    exists new, trace s2 = trace s ++ new /\
      map leg new = settlementLegs 1000 (platformWallet (cfg s)) (platformWallet (cfg s))
                      (defaultCourseAdditionFee (cfg s)) (msg_value env) (msg_sender env)) env s).
  { unfold updateCertificate. wp_go. norm_hyps. autorewrite with st in *.
    rewrite ?cert_at_set_entered, ?cert_at_set_trace, ?cert_at_update_cert_eq, ?cert_at_set_used.
    split; [assumption|]. split; [assumption|]. split; [assumption|].
    split; [reflexivity|]. split; [reflexivity|].
    eexists. split; [reflexivity|]. apply map_leg_snapshots. }
  unfold wp in Hw. cbn [dispatch] in Hd. rewrite Hd in Hw. exact Hw.
Qed.

Lemma update_certificate_effects_witness :
  dispatch (UpdateCertificate 1 "cid3" 13) (env_of 7 (10 ^ 14)) s1 =
    Ok tt (post (env_of 7 (10 ^ 14)) (UpdateCertificate 1 "cid3" 13) s1) /\
  recipientAddress (cert_at s1 1) = msg_sender (env_of 7 (10 ^ 14)) /\
  isValid (cert_at s1 1) = true /\
  defaultCourseAdditionFee (cfg s1) <= msg_value (env_of 7 (10 ^ 14)) /\
  completedCourses (cert_at (post (env_of 7 (10 ^ 14)) (UpdateCertificate 1 "cid3" 13) s1) 1)
    = completedCourses (cert_at s1 1) /\
  totalCoursesCompleted (cert_at (post (env_of 7 (10 ^ 14)) (UpdateCertificate 1 "cid3" 13) s1) 1)
    = totalCoursesCompleted (cert_at s1 1) /\
  exists new, trace (post (env_of 7 (10 ^ 14)) (UpdateCertificate 1 "cid3" 13) s1) = trace s1 ++ new /\
    map leg new = settlementLegs 1000 (platformWallet (cfg s1)) (platformWallet (cfg s1))
                    (defaultCourseAdditionFee (cfg s1)) (msg_value (env_of 7 (10 ^ 14)))
                    (msg_sender (env_of 7 (10 ^ 14))).
Proof.
  assert (H : dispatch (UpdateCertificate 1 "cid3" 13) (env_of 7 (10 ^ 14)) s1 =
    Ok tt (post (env_of 7 (10 ^ 14)) (UpdateCertificate 1 "cid3" 13) s1)) by (vm_compute; reflexivity).
  split; [exact H|]. exact (update_certificate_effects _ _ _ _ _ _ H).
Defined.

(** C8, the split: refreshing certificate 1 with the 0.0001 ether fee pays the
    platform wallet (99) 10% and then 90%, not a 2% fee (2 * 10^12 wei). *)
Example refresh_settles_ten_percent :
  map leg (skipn (length (trace s1))
    (trace (post (env_of 7 (10 ^ 14)) (UpdateCertificate 1 "cid3" 13) s1))) =
  [(99, 10 ^ 13); (99, 9 * 10 ^ 13)] /\
  10 ^ 14 * 2 / 100 = 2 * 10 ^ 12.
Proof. split; vm_compute; reflexivity. Qed.

(** ** C9: soulbound ownership *)

Lemma owner_kept env c s t u :
  reachable s -> owner_at s t = Some u -> owner_at (post env c s) t = Some u.
Proof.
  intros HR Ho. destruct (reachable_inv s HR) as [HW _].
  destruct (post_cases env c s HR) as [(_ & _ & F3 & _) | [v (_ & _ & _ & M4 & _)]].
  - rewrite F3. exact Ho.
  - rewrite M4. destruct (decide (t = nextTokenId s)) as [->|]; [|exact Ho].
    destruct HW as (_ & W2 & _).
    assert (Hs : is_Some (owner_at s (nextTokenId s))) by (rewrite Ho; eauto).
    apply W2 in Hs. lia.
Qed.

(** C9.  From a reachable state no transaction changes the owner recorded
    for an existing certificate; _update reverts for any transfer between two
    nonzero addresses, and the ERC-1155 entry points safeTransferFrom and
    safeBatchTransferFrom always revert. *)
Theorem owner_fixed_at_creation s :
  reachable s ->
  (forall env c t u, owner_at s t = Some u -> owner_at (post env c s) t = Some u) /\
  (forall from to ids values env s2, from <> 0 -> to <> 0 ->
     _update from to ids values env s2 = Revert (RevertMsg "Certificates are soulbound")) /\
  (forall env from to id value, post env (SafeTransferFrom from to id value) s = s) /\
  (forall env from to ids values, post env (SafeBatchTransferFrom from to ids values) s = s).
Proof.
  intros HR. split; [|split; [|split]].
  - intros env c t u. apply owner_kept, HR.
  - intros from to ids values env s2 Hf Ht. unfold _update.
    apply Z.eqb_neq in Hf, Ht. rewrite Hf, Ht. reflexivity.
  - intros env from to id value. unfold post. cbn [dispatch].
    destruct (safeTransferFrom_reverts from to id value env s) as [e ->]. reflexivity.
  - intros env from to ids values. unfold post. cbn [dispatch].
    destruct (safeBatchTransferFrom_reverts from to ids values env s) as [e ->]. reflexivity.
Qed.

Lemma owner_fixed_at_creation_witness :
  reachable s1 /\
  (forall env c t u, owner_at s1 t = Some u -> owner_at (post env c s1) t = Some u) /\
  (forall from to ids values env s2, from <> 0 -> to <> 0 ->
     _update from to ids values env s2 = Revert (RevertMsg "Certificates are soulbound")) /\
  (forall env from to id value, post env (SafeTransferFrom from to id value) s1 = s1) /\
  (forall env from to ids values, post env (SafeBatchTransferFrom from to ids values) s1 = s1).
Proof.
  split; [apply reachable_s1|]. apply (owner_fixed_at_creation s1). apply reachable_s1.
Defined.

(** ** C10: token identifiers *)



(** ** Further properties of the ledger *)

Lemma mint_first_wp courseId rn cid h br env s :
  entered s = false -> userCert s (msg_sender env) = 0 ->
  wp (mintOrUpdateCertificate courseId rn cid h br) (fun _ s' => MintEffects env courseId rn cid h br s s') env s.
Proof.
  intros HE Hu. unfold mintOrUpdateCertificate. wp_go; norm_hyps; try congruence; autorewrite with st in *; try congruence.
  all: unfold MintEffects; repeat split; try assumption; try reflexivity.
  all: do 3 eexists; split;
    [ cbv beta iota zeta delta [getCourseCertificatePrice mbind M_bind get mret M_ret];
      match goal with |- context [if ?b then _ else _] => destruct b eqn:? end; norm_hyps; try lia; reflexivity
    | ].
  all: split; [assumption|]; split; [eassumption|]; split; [reflexivity|apply map_leg_snapshots].
Qed.

Lemma wp_validateCourses_ok tokenId courseIds Q env s :
  (Forall (fun c => isCourseCompleted env (msg_sender env) c = true /\
                    ((tokenId, c) ∉ certificateCourseExists s)) courseIds -> Q tt s) ->
  wp (validateCourses tokenId courseIds) Q env s.
Proof.
  revert s. induction courseIds as [|c rest IH]; intros s HQ; cbn [validateCourses].
  - apply HQ. constructor.
  - unfold revert_if. repeat wp_core; auto. norm_hyps. apply IH. intros HF. apply HQ.
    constructor; auto.
Qed.

Lemma addCourses_proj {A} (p : St -> A) t l x :
  (forall f y, p (set_certificateCourseExists f y) = p y) ->
  (forall f y, p (set_certificates f y) = p y) ->
  p (addCourses_state t l x) = p x.
Proof.
  intros H1 H2. unfold addCourses_state. revert x. induction l as [|c l IH]; intros x; cbn; auto.
  rewrite IH, H1. unfold update_cert. apply H2.
Qed.

Lemma cert_at_addCourses t l x :
  cert_at (addCourses_state t l x) t = cert_push_all l (cert_at x t).
Proof.
  unfold addCourses_state. revert x. induction l as [|c l IH]; intros x; [reflexivity|].
  cbn [fold_left]. rewrite IH. unfold update_cert, cert_at. cbn. rewrite lookup_insert_eq. reflexivity.
Qed.

Lemma insert_certificates_addCourses t l v x :
  <[t := v]> (certificates (addCourses_state t l x)) = <[t := v]> (certificates x).
Proof.
  unfold addCourses_state. revert x. induction l as [|c l IH]; intros x; [reflexivity|].
  cbn [fold_left]. rewrite IH. cbn. apply insert_insert_eq.
Qed.

Lemma total_push_all l c : totalCoursesCompleted (cert_push_all l c) = totalCoursesCompleted c.
Proof. revert c. induction l as [|x l IH]; intros c; [reflexivity|]. cbn. rewrite IH. reflexivity. Qed.

Ltac st_simpl :=
  cbn [cfg entered nextTokenId certificates userCertificates usedPaymentHashes tokenURIs
    certificateCourseExists courseCertificatePrices certificateCourseCompletionDate balances
    operatorApprovals trace set_cfg set_entered set_nextTokenId set_certificates
    set_userCertificates set_usedPaymentHashes set_tokenURIs set_certificateCourseExists
    set_courseCertificatePrices set_certificateCourseCompletionDate set_balances
    set_operatorApprovals set_trace update_cert].

Ltac ac_proj :=
  repeat first
    [ rewrite (addCourses_proj cfg) by (intros; reflexivity)
    | rewrite (addCourses_proj entered) by (intros; reflexivity)
    | rewrite (addCourses_proj nextTokenId) by (intros; reflexivity)
    | rewrite (addCourses_proj userCertificates) by (intros; reflexivity)
    | rewrite (addCourses_proj usedPaymentHashes) by (intros; reflexivity)
    | rewrite (addCourses_proj tokenURIs) by (intros; reflexivity)
    | rewrite (addCourses_proj courseCertificatePrices) by (intros; reflexivity)
    | rewrite (addCourses_proj certificateCourseCompletionDate) by (intros; reflexivity)
    | rewrite (addCourses_proj balances) by (intros; reflexivity)
    | rewrite (addCourses_proj operatorApprovals) by (intros; reflexivity)
    | rewrite (addCourses_proj trace) by (intros; reflexivity) ].

Lemma courseExists_addCourses t l x k c :
  (k, c) ∈ certificateCourseExists (addCourses_state t l x) <->
  (k = t /\ In c l) \/ (k, c) ∈ certificateCourseExists x.
Proof.
  unfold addCourses_state. revert x. induction l as [|c' l IH]; intros x; cbn [fold_left].
  - cbn. intuition.
  - rewrite IH. cbn. rewrite elem_of_union, elem_of_singleton. intuition congruence.
Qed.

Lemma add_multiple_wp courseIds cid h env s :
  entered s = false ->
  wp (addMultipleCoursesToCertificate courseIds cid h) (fun _ s' => BatchEffects env courseIds cid h s s') env s.
Proof.
  intros HE. unfold addMultipleCoursesToCertificate. wp_unfold.
  repeat (lazymatch goal with
          | |- wp (validateCourses _ _) _ _ _ => apply wp_validateCourses_ok; intros ?HV
          | _ => wp_step
          end).
  all: norm_hyps; try congruence; autorewrite with st in *; try congruence.
  all: rewrite !update_cert_update_cert.
  all: unfold BatchEffects; repeat match goal with |- _ /\ _ => split end; try assumption.
  all: try (intros ->; cbn in *; discriminate).
  all: try (st_simpl; ac_proj; st_simpl; reflexivity).
  all: try (st_simpl; rewrite insert_addCourses; reflexivity).
  all: try (intros k c; st_simpl; rewrite courseExists_addCourses; st_simpl; reflexivity).
  all: try (st_simpl; rewrite cert_at_addCourses, insert_certificates_addCourses, total_push_all; reflexivity).
  all: eexists; split; [st_simpl; ac_proj; st_simpl; reflexivity|].
  all: rewrite map_leg_snapshots; st_simpl; ac_proj; st_simpl; reflexivity.
Qed.

Lemma Quiet_refl s : Quiet s s.
Proof. repeat split; eauto. Qed.

Lemma Quiet_set_entered_r s0 x b : Quiet s0 x -> Quiet s0 (set_entered b x).
Proof. auto. Qed.

Lemma Quiet_set_trace_r s0 x f : Quiet s0 x -> Quiet s0 (set_trace f x).
Proof. auto. Qed.

Lemma Quiet_set_cfg_r s0 x f : Quiet s0 x -> Quiet s0 (set_cfg f x).
Proof. auto. Qed.

Lemma Quiet_set_tokenURIs_r s0 x f : Quiet s0 x -> Quiet s0 (set_tokenURIs f x).
Proof. auto. Qed.

Lemma Quiet_set_courseCertificatePrices_r s0 x f :
  Quiet s0 x -> Quiet s0 (set_courseCertificatePrices f x).
Proof. auto. Qed.

Lemma Quiet_set_operatorApprovals_r s0 x f : Quiet s0 x -> Quiet s0 (set_operatorApprovals f x).
Proof. auto. Qed.

Lemma Quiet_set_usedPaymentHashes_r s0 x f : Quiet s0 x -> Quiet s0 (set_usedPaymentHashes f x).
Proof. auto. Qed.

Lemma Quiet_update_cert_r s0 x t f :
  Quiet s0 x -> is_Some (certificates s0 !! t) ->
  (forall c, core (f c) = core c) -> (forall c, isValid c = false -> isValid (f c) = false) ->
  Quiet s0 (update_cert t f x).
Proof.
  intros (Q1 & Q2 & Q3 & Q4 & Q5 & Q6) [c0 Hc0] Hf Hv.
  assert (Hx : exists cx, certificates x !! t = Some cx).
  { specialize (Q3 t). rewrite Hc0 in Q3. destruct (certificates x !! t) as [cx|]; [eauto|discriminate]. }
  destruct Hx as [cx Hcx].
  unfold update_cert, cert_at. repeat split; cbn; auto.
  - intros k. destruct (decide (k = t)) as [->|Hne].
    + rewrite lookup_insert_eq, Hcx. cbn. rewrite Hf. rewrite <- Q3, Hcx. reflexivity.
    + rewrite lookup_insert_ne by congruence. apply Q3.
  - intros k c Hk Hfalse. destruct (Q4 k c Hk Hfalse) as (c' & Hc' & Hv').
    destruct (decide (k = t)) as [->|Hne].
    + rewrite lookup_insert_eq, Hcx. eexists; split; [reflexivity|]. apply Hv. cbn. congruence.
    + rewrite lookup_insert_ne by congruence. eauto.
Qed.

Lemma Quiet_batch_r s0 x l r ts :
  Wf s0 -> Quiet s0 x -> Quiet s0 (batchUpdateBaseRoute_state l r ts x).
Proof.
  intros HW. unfold batchUpdateBaseRoute_state. revert x. induction l as [|t l IH]; intros x HQ; cbn; auto.
  apply IH. destruct (_exists x t) eqn:E; auto.
  assert (Hs : is_Some (certificates s0 !! t)).
  { apply (Wf_exists_dom s0 t HW). destruct HQ as (Q1 & _). unfold _exists in *. rewrite <- Q1. exact E. }
  apply Quiet_update_cert_r; [|assumption|intros; reflexivity|intros ? H; exact H].
  apply Quiet_update_cert_r; [assumption|assumption|intros; reflexivity|intros ? H; exact H].
Qed.

Ltac quiet_r :=
  repeat first
    [ apply Quiet_refl
    | apply Quiet_set_entered_r | apply Quiet_set_trace_r | apply Quiet_set_cfg_r
    | apply Quiet_set_tokenURIs_r | apply Quiet_set_courseCertificatePrices_r
    | apply Quiet_set_operatorApprovals_r | apply Quiet_set_usedPaymentHashes_r
    | apply Quiet_update_cert_r
    | apply Quiet_batch_r; [assumption|] ].

Lemma step_outcome c env s :
  Wf s -> entered s = false ->
  wp (dispatch c) (fun _ s' => Outcome env s s') env s.
Proof.
  intros HW HE. destruct c; cbn [dispatch];
    try (unfold wp; match goal with
         | |- context [safeTransferFrom ?f ?t ?i ?v env s] =>
             destruct (safeTransferFrom_reverts f t i v env s) as [? ->]; exact I
         | |- context [safeBatchTransferFrom ?f ?t ?i ?v env s] =>
             destruct (safeBatchTransferFrom_reverts f t i v env s) as [? ->]; exact I
         end).
  1: { destruct (Z.eq_dec (userCert s (msg_sender env)) 0) as [Hu|Hu].
    - eapply wp_conseq; [apply mint_first_wp; assumption|]. intros ? s' H. right; left. do 5 eexists. split; [exact Hu | exact H].
    - eapply wp_conseq; [apply append_course_wp; assumption|]. intros ? s' H. right; right; left. do 3 eexists. exact H. }
  1: { unfold updateCertificate. wp_go; norm_hyps; try congruence; autorewrite with st in *.
    left. quiet_r; first [assumption | intros; reflexivity | exact (fun _ h => h)
                         | eapply Wf_exists_dom; eassumption]. }
  1: { eapply wp_conseq; [apply add_multiple_wp; assumption|]. intros ? s' H. right; right; right. do 3 eexists. exact H. }
  all: unfold setDefaultCertificateFee, setDefaultCourseAdditionFee, setPlatformWallet,
      setDefaultPlatformName, setCourseCertificatePrice, setTokenURI, updateBaseRoute,
      updateDefaultBaseRoute, updateDefaultMetadataBaseURI, batchUpdateBaseRoute,
      revokeCertificate, pause, unpause, transferOwnership, renounceOwnership, setApprovalForAll.
  all: wp_go; norm_hyps; try congruence.
  all: left; quiet_r; first [assumption | intros; reflexivity | exact (fun _ h => h)
                             | eapply Wf_exists_dom; eassumption].
Qed.

Lemma completed_push_all l c : completedCourses (cert_push_all l c) = completedCourses c ++ l.
Proof.
  revert c. induction l as [|x l IH]; intros c; cbn; [rewrite app_nil_r; reflexivity|].
  rewrite IH. cbn. rewrite <- app_assoc. reflexivity.
Qed.

Lemma recipient_push_all l c : recipientAddress (cert_push_all l c) = recipientAddress c.
Proof. revert c. induction l as [|x l IH]; intros c; [reflexivity|]. cbn. rewrite IH. reflexivity. Qed.

Lemma Wf_next_free s : Wf s -> certificates s !! nextTokenId s = None.
Proof.
  intros (_ & W2 & _). destruct (certificates s !! nextTokenId s) eqn:E; [|reflexivity].
  assert (Hs : is_Some (owner_at s (nextTokenId s))) by (unfold owner_at; rewrite E; eauto).
  apply W2 in Hs. lia.
Qed.

Lemma wrap256_add_len a b :
  wrap256 (wrap256 a + b) = wrap256 (a + b).
Proof. unfold wrap256. rewrite Zplus_mod_idemp_l. reflexivity. Qed.

Lemma Quiet_lookup s s' t c' :
  Quiet s s' -> certificates s' !! t = Some c' ->
  exists c, certificates s !! t = Some c /\ core c' = core c.
Proof.
  intros (_ & _ & Q3 & _) H. specialize (Q3 t). rewrite H in Q3.
  destruct (certificates s !! t) as [c|]; cbn in Q3; [|discriminate]. assert (Hq : core c' = core c) by congruence. eauto.
Qed.

Lemma Quiet_lookup_r s s' t c :
  Quiet s s' -> certificates s !! t = Some c ->
  exists c', certificates s' !! t = Some c' /\ core c' = core c.
Proof.
  intros (_ & _ & Q3 & _) H. specialize (Q3 t). rewrite H in Q3.
  destruct (certificates s' !! t) as [c'|]; cbn in Q3; [|discriminate]. assert (Hq : core c' = core c) by congruence. eauto.
Qed.

Lemma Quiet_owner_at s s' t : Quiet s s' -> owner_at s' t = owner_at s t.
Proof.
  intros HQ. unfold owner_at. destruct (certificates s' !! t) as [c'|] eqn:E.
  - destruct (Quiet_lookup s s' t c' HQ E) as (c & -> & Hc). cbn. unfold core in Hc. congruence.
  - destruct (certificates s !! t) as [c|] eqn:E'; [|reflexivity].
    destruct (Quiet_lookup_r s s' t c HQ E') as (c' & Hc' & _). congruence.
Qed.

Lemma DataInv_Quiet s s' : DataInv s -> Quiet s s' -> DataInv s'.
Proof.
  unfold DataInv, CourseIndexOK, CountOK, BalanceOK.
  intros (I1 & I2 & I3) HQ. pose proof HQ as (Q1 & Q2 & Q3 & Q4 & Q5 & Q6).
  split; [|split].
  - intros t c. rewrite Q5, I1. split.
    + intros (cert & Hc & Hin). destruct (Quiet_lookup_r s s' t cert HQ Hc) as (c' & Hc' & Hcore).
      exists c'. split; [exact Hc'|]. unfold core in Hcore. congruence.
    + intros (c' & Hc' & Hin). destruct (Quiet_lookup s s' t c' HQ Hc') as (cert & Hc & Hcore).
      exists cert. split; [exact Hc|]. unfold core in Hcore. congruence.
  - intros t c' Hc'. destruct (Quiet_lookup s s' t c' HQ Hc') as (cert & Hc & Hcore).
    unfold core in Hcore. injection Hcore as E1 E2 E3. rewrite E3, E2. apply (I2 t), Hc.
  - intros t a. unfold balanceOf. rewrite Q6, (Quiet_owner_at s s' t HQ). apply I3.
Qed.

Lemma DataInv_Mint env courseId rn cid h br s s' :
  Wf s -> DataInv s -> MintEffects env courseId rn cid h br s s' -> DataInv s'.
Proof.
  unfold DataInv, CourseIndexOK, CountOK, BalanceOK, MintEffects.
  intros HW (I1 & I2 & I3) (_ & _ & _ & _ & _ & _ & E2 & _ & _ & E5 & E6 & _).
  pose proof (Wf_next_free s HW) as Hn.
  set (n := nextTokenId s) in *. set (u := msg_sender env) in *.
  split; [|split].
  - intros t c. rewrite E5, E2, elem_of_union, elem_of_singleton.
    destruct (decide (t = n)) as [->|Hne].
    + rewrite lookup_insert_eq. cbn. split.
      * intros [Hc|Hc].
        -- assert (c = courseId) by congruence. subst c. eexists; split; [reflexivity|]. left. reflexivity.
        -- apply I1 in Hc as (cert & Hc' & _). congruence.
      * intros (cert & Hc & Hin). injection Hc as <-. cbn in Hin.
        destruct Hin as [<-|[]]. left. reflexivity.
    + rewrite lookup_insert_ne by congruence. rewrite <- I1.
      split; [intros [Hc|Hc]; [congruence|exact Hc] | intros Hc; right; exact Hc].
  - intros t cert. rewrite E2. destruct (decide (t = n)) as [->|Hne].
    + rewrite lookup_insert_eq. intros Hc. injection Hc as <-. reflexivity.
    + rewrite lookup_insert_ne by congruence. apply I2.
  - intros t a. unfold balanceOf, owner_at. rewrite E6, E2.
    assert (H0 : balanceOf s u n = 0).
    { rewrite I3. unfold owner_at. rewrite Hn. reflexivity. }
    destruct (decide ((t, a) = (n, u))) as [Heq|Hne].
    + injection Heq as -> ->. rewrite !lookup_insert_eq. cbn. rewrite H0.
      rewrite decide_True by reflexivity. reflexivity.
    + rewrite lookup_insert_ne by congruence. fold (balanceOf s a t). rewrite I3. unfold owner_at.
      destruct (decide (t = n)) as [->|Htn].
      * rewrite lookup_insert_eq, Hn. cbn.
        rewrite decide_False by discriminate. rewrite decide_False by congruence. reflexivity.
      * rewrite lookup_insert_ne by congruence. reflexivity.
Qed.

Lemma DataInv_Append env courseId cid h s s' :
  Wf s -> DataInv s -> AppendEffects env courseId cid h s s' -> DataInv s'.
Proof.
  unfold DataInv, CourseIndexOK, CountOK, BalanceOK, AppendEffects.
  intros HW (I1 & I2 & I3) (_ & _ & _ & _ & _ & Ht & _ & _ & _ & _ & E2 & _ & _ & E5 & _ & E6 & _).
  set (t0 := userCert s (msg_sender env)) in *.
  destruct (Wf_userCert_dom s (msg_sender env) HW Ht) as [c0 Hc0]. fold t0 in Hc0.
  assert (Hat : cert_at s t0 = c0) by (unfold cert_at; rewrite Hc0; reflexivity).
  rewrite Hat in E2.
  split; [|split].
  - intros t c. rewrite E5, E2, elem_of_union, elem_of_singleton.
    destruct (decide (t = t0)) as [->|Hne].
    + rewrite lookup_insert_eq. cbn. rewrite I1. split.
      * intros [Hc|(cert & Hc & Hin)].
        -- injection Hc as ->. eexists; split; [reflexivity|]. apply in_or_app. right. left. reflexivity.
        -- rewrite Hc0 in Hc. injection Hc as <-. eexists; split; [reflexivity|]. apply in_or_app. left. exact Hin.
      * intros (cert & Hc & Hin). injection Hc as <-. cbn in Hin. apply in_app_or in Hin as [Hin|[<-|[]]].
        -- right. eauto.
        -- left. reflexivity.
    + rewrite lookup_insert_ne by congruence. rewrite <- I1.
      split; [intros [Hc|Hc]; [congruence|exact Hc] | intros Hc; right; exact Hc].
  - intros t cert. rewrite E2. destruct (decide (t = t0)) as [->|Hne].
    + rewrite lookup_insert_eq. intros Hc. injection Hc as <-. cbn.
      rewrite (I2 _ _ Hc0), length_app. cbn. rewrite Nat2Z.inj_add. apply wrap256_add_len.
    + rewrite lookup_insert_ne by congruence. apply I2.
  - intros t a. unfold balanceOf. rewrite E6. fold (balanceOf s a t). rewrite I3.
    unfold owner_at. rewrite E2. destruct (decide (t = t0)) as [->|Hne].
    + rewrite lookup_insert_eq, Hc0. reflexivity.
    + rewrite lookup_insert_ne by congruence. reflexivity.
Qed.

Lemma DataInv_Batch env courseIds cid h s s' :
  Wf s -> DataInv s -> BatchEffects env courseIds cid h s s' -> DataInv s'.
Proof.
  unfold DataInv, CourseIndexOK, CountOK, BalanceOK, BatchEffects.
  intros HW (I1 & I2 & I3) (_ & _ & _ & _ & Ht & _ & _ & _ & _ & _ & E2 & _ & _ & E5 & _ & E6 & _).
  set (t0 := userCert s (msg_sender env)) in *.
  destruct (Wf_userCert_dom s (msg_sender env) HW Ht) as [c0 Hc0]. fold t0 in Hc0.
  assert (Hat : cert_at s t0 = c0) by (unfold cert_at; rewrite Hc0; reflexivity).
  rewrite Hat in E2.
  split; [|split].
  - intros t c. rewrite E5, E2. destruct (decide (t = t0)) as [->|Hne].
    + rewrite lookup_insert_eq. cbn [completedCourses totalCoursesCompleted recipientAddress cert_set_paymentReceiptHash cert_set_ipfsCID cert_set_lastUpdated cert_set_total]. rewrite I1. split.
      * intros [[_ Hc]|(cert & Hc & Hin)].
        -- eexists; split; [reflexivity|]. cbn [completedCourses cert_set_paymentReceiptHash cert_set_ipfsCID cert_set_lastUpdated cert_set_total].
           rewrite completed_push_all. apply in_or_app. right. exact Hc.
        -- rewrite Hc0 in Hc. injection Hc as <-. eexists; split; [reflexivity|]. cbn [completedCourses cert_set_paymentReceiptHash cert_set_ipfsCID cert_set_lastUpdated cert_set_total].
           rewrite completed_push_all. apply in_or_app. left. exact Hin.
      * intros (cert & Hc & Hin). injection Hc as <-. cbn [completedCourses cert_set_paymentReceiptHash cert_set_ipfsCID cert_set_lastUpdated cert_set_total] in Hin.
        rewrite completed_push_all in Hin. apply in_app_or in Hin as [Hin|Hin].
        -- right. eauto.
        -- left. split; [reflexivity|exact Hin].
    + rewrite lookup_insert_ne by congruence. rewrite <- I1.
      split; [intros [[Hc _]|Hc]; [congruence|exact Hc] | intros Hc; right; exact Hc].
  - intros t cert. rewrite E2. destruct (decide (t = t0)) as [->|Hne].
    + rewrite lookup_insert_eq. intros Hc. injection Hc as <-. cbn [completedCourses totalCoursesCompleted recipientAddress cert_set_paymentReceiptHash cert_set_ipfsCID cert_set_lastUpdated cert_set_total].
      rewrite completed_push_all, (I2 _ _ Hc0), length_app, Nat2Z.inj_add.
      apply wrap256_add_len.
    + rewrite lookup_insert_ne by congruence. apply I2.
  - intros t a. unfold balanceOf. rewrite E6. fold (balanceOf s a t). rewrite I3.
    unfold owner_at. rewrite E2. destruct (decide (t = t0)) as [->|Hne].
    + rewrite lookup_insert_eq, Hc0. cbn [option_map recipientAddress cert_set_paymentReceiptHash cert_set_ipfsCID cert_set_lastUpdated cert_set_total]. rewrite recipient_push_all. reflexivity.
    + rewrite lookup_insert_ne by congruence. reflexivity.
Qed.

Lemma DataInv_initialState deployer pw br pn : DataInv (initialState deployer pw br pn).
Proof.
  unfold DataInv, CourseIndexOK, CountOK, BalanceOK, balanceOf, owner_at. cbn.
  split; [|split].
  - intros t c. rewrite lookup_empty. split; [set_solver|]. intros (? & H & _). discriminate.
  - intros t cert H. rewrite lookup_empty in H. discriminate.
  - intros t a. rewrite !lookup_empty. reflexivity.
Qed.

Lemma reachable_DataInv s : reachable s -> DataInv s.
Proof.
  induction 1 as [deployer cf pt cl pw br pn s H | env c s HR IH].
  - unfold constructor in H.
    repeat match goal with H : context [if ?b then _ else _] |- _ => destruct b end;
      try discriminate.
    injection H as <-. apply DataInv_initialState.
  - destruct (reachable_inv s HR) as [HW HE].
    pose proof (step_outcome c env s HW HE) as Hs. unfold wp, post in *.
    destruct (dispatch c env s) as [[] s'|e]; [|exact IH].
    destruct Hs as [HQ | [(? & ? & ? & ? & ? & _ & HM) | [(? & ? & ? & HA) | (? & ? & ? & HB)]]].
    + eapply DataInv_Quiet; eauto.
    + eapply DataInv_Mint; eauto.
    + eapply DataInv_Append; eauto.
    + eapply DataInv_Batch; eauto.
Qed.

Lemma Wf_exists_iff s t : Wf s -> _exists s t = true <-> is_Some (certificates s !! t).
Proof.
  intros HW. split; [apply Wf_exists_dom; exact HW|].
  destruct HW as (_ & W2 & _). intros Hs. apply owner_at_dom, W2 in Hs.
  unfold _exists. apply andb_true_iff. split; apply Z.ltb_lt; lia.
Qed.

Lemma cert_at_Some s t c : certificates s !! t = Some c -> cert_at s t = c.
Proof. intros H. unfold cert_at. rewrite H. reflexivity. Qed.

Ltac view :=
  cbv beta iota zeta delta [getCertificate getCertificateCompletedCourses isCourseInCertificate
    getUserCertificateStats verifyCertificate getLearningJourneySummary getCourseCertificatePrice
    getCourseCompletionDate uri generateQRData revert_if mbind M_bind get mret M_ret revert].

(** In every reachable state, isCourseInCertificate(t, c) returns true
    exactly when getCertificateCompletedCourses(t) succeeds with a list
    containing [c]. *)
Lemma course_membership_views_agree t c env s :
  reachable s ->
  (isCourseInCertificate t c env s = Ok true s <->
   exists l, getCertificateCompletedCourses t env s = Ok l s /\ In c l).
Proof.
  intros HR. destruct (reachable_inv s HR) as [HW _].
  destruct (reachable_DataInv s HR) as (I1 & _).
  view. destruct (_exists s t) eqn:E; cbn.
  - split.
    + intros H. injection H as H. apply bool_decide_eq_true in H.
      apply I1 in H as (cert & Hc & Hin). rewrite (cert_at_Some s t cert Hc). eauto.
    + intros (l & H & Hin). injection H as <-.
      destruct (proj1 (Wf_exists_iff s t HW) E) as [cert Hc].
      rewrite (cert_at_Some s t cert Hc) in Hin. f_equal. apply bool_decide_eq_true.
      apply I1. eauto.
  - split; [discriminate|]. intros (l & H & _). discriminate.
Qed.

(** In every reachable state, a certificate returned by getCertificate has a
    course count equal to the length of its course list. *)
Lemma certificate_count_matches_courses t cert env s :
  reachable s -> getCertificate t env s = Ok cert s ->
  totalCoursesCompleted cert = wrap256 (Z.of_nat (length (completedCourses cert))).
Proof.
  intros HR. destruct (reachable_inv s HR) as [HW _].
  destruct (reachable_DataInv s HR) as (_ & I2 & _).
  view. destruct (_exists s t) eqn:E; cbn; [|discriminate].
  intros H. injection H as <-.
  destruct (proj1 (Wf_exists_iff s t HW) E) as [cert Hc].
  rewrite (cert_at_Some s t cert Hc). apply (I2 t cert Hc).
Qed.

(** In every reachable state, the ERC-1155 balance of [a] for token [t] is 1
    when [a] is the recipient of certificate [t], and 0 otherwise. *)
Lemma balance_is_record_ownership a t s :
  reachable s -> balanceOf s a t = if decide (owner_at s t = Some a) then 1 else 0.
Proof. intros HR. destruct (reachable_DataInv s HR) as (_ & _ & I3). apply I3. Qed.

Lemma step_quiet c env s :
  Wf s -> entered s = false ->
  (forall courseId rn cid h br, c <> MintOrUpdateCertificate courseId rn cid h br) ->
  (forall courseIds cid h, c <> AddMultipleCoursesToCertificate courseIds cid h) ->
  wp (dispatch c) (fun _ s' => Quiet s s') env s.
Proof.
  intros HW HE N1 N2. destruct c; cbn [dispatch];
    try (exfalso; eapply N1; reflexivity); try (exfalso; eapply N2; reflexivity);
    try (unfold wp; match goal with
         | |- context [safeTransferFrom ?f ?t ?i ?v env s] =>
             destruct (safeTransferFrom_reverts f t i v env s) as [? ->]; exact I
         | |- context [safeBatchTransferFrom ?f ?t ?i ?v env s] =>
             destruct (safeBatchTransferFrom_reverts f t i v env s) as [? ->]; exact I
         end).
  1: { unfold updateCertificate. wp_go; norm_hyps; try congruence; autorewrite with st in *.
    quiet_r; first [assumption | intros; reflexivity | exact (fun _ h => h)
                   | eapply Wf_exists_dom; eassumption]. }
  all: unfold setDefaultCertificateFee, setDefaultCourseAdditionFee, setPlatformWallet,
      setDefaultPlatformName, setCourseCertificatePrice, setTokenURI, updateBaseRoute,
      updateDefaultBaseRoute, updateDefaultMetadataBaseURI, batchUpdateBaseRoute,
      revokeCertificate, pause, unpause, transferOwnership, renounceOwnership, setApprovalForAll.
  all: wp_go; norm_hyps; try congruence.
  all: quiet_r; first [assumption | intros; reflexivity | exact (fun _ h => h)
                       | eapply Wf_exists_dom; eassumption].
Qed.

(** A successful mintOrUpdateCertificate by a principal without a
    certificate creates certificate [nextTokenId] for the caller with the one
    course, indexes it, mints one token, consumes the receipt and settles the
    course price (10% to the platform, the rest to the course creator, the
    excess refunded). *)
Lemma mint_first_certificate_effects courseId rn cid h br env s s' :
  entered s = false -> userCert s (msg_sender env) = 0 ->
  dispatch (MintOrUpdateCertificate courseId rn cid h br) env s = Ok tt s' ->
  MintEffects env courseId rn cid h br s s'.
Proof.
  intros HE Hu Hd. pose proof (mint_first_wp courseId rn cid h br env s HE Hu) as Hw.
  unfold wp in Hw. cbn [dispatch] in Hd. rewrite Hd in Hw. exact Hw.
Qed.

Lemma mint_first_certificate_effects_witness :
  entered s0 = false /\ userCert s0 7 = 0 /\
  dispatch (MintOrUpdateCertificate 5 "Ann" "cid1" 11 "") (env_of 7 (10 ^ 15)) s0 = Ok tt s1 /\
  MintEffects (env_of 7 (10 ^ 15)) 5 "Ann" "cid1" 11 "" s0 s1.
Proof.
  assert (H1 : entered s0 = false) by reflexivity.
  assert (H2 : userCert s0 7 = 0) by reflexivity.
  assert (H3 : dispatch (MintOrUpdateCertificate 5 "Ann" "cid1" 11 "") (env_of 7 (10 ^ 15)) s0 = Ok tt s1)
    by (vm_compute; reflexivity).
  split; [exact H1|]. split; [exact H2|]. split; [exact H3|].
  exact (mint_first_certificate_effects 5 "Ann" "cid1" 11 "" (env_of 7 (10 ^ 15)) s0 s1 H1 H2 H3).
Defined.

(** A successful mintOrUpdateCertificate by a principal who has a
    certificate appends the course to that valid certificate (the course was
    not in it), raises the count by one, records the completion date of the
    last section, consumes the receipt and settles the course price at 2%. *)
Lemma append_course_effects courseId rn cid h br env s s' :
  entered s = false -> userCert s (msg_sender env) <> 0 ->
  dispatch (MintOrUpdateCertificate courseId rn cid h br) env s = Ok tt s' ->
  AppendEffects env courseId cid h s s'.
Proof.
  intros HE Hu Hd. pose proof (append_course_wp courseId rn cid h br env s HE Hu) as Hw.
  unfold wp in Hw. cbn [dispatch] in Hd. rewrite Hd in Hw. exact Hw.
Qed.

Lemma append_course_effects_witness :
  AppendEffects (env_of 7 (10 ^ 15)) 7 "cid2" 12 s1
    (post (env_of 7 (10 ^ 15)) (MintOrUpdateCertificate 7 "Ann" "cid2" 12 "") s1).
Proof.
  apply (append_course_effects 7 "Ann" "cid2" 12 "" (env_of 7 (10 ^ 15)) s1); vm_compute;
    first [reflexivity | discriminate].
Defined.

(** A successful addMultipleCoursesToCertificate appends every listed course
    (each completed and not yet in the certificate before the call) to the
    caller's valid certificate, raises the count by the batch length and
    settles [defaultCourseAdditionFee * length] at 10% to the platform. *)
Lemma add_multiple_courses_effects courseIds cid h env s s' :
  entered s = false ->
  dispatch (AddMultipleCoursesToCertificate courseIds cid h) env s = Ok tt s' ->
  BatchEffects env courseIds cid h s s'.
Proof.
  intros HE Hd. pose proof (add_multiple_wp courseIds cid h env s HE) as Hw.
  unfold wp in Hw. cbn [dispatch] in Hd. rewrite Hd in Hw. exact Hw.
Qed.

Lemma add_multiple_courses_effects_witness :
  BatchEffects (env_of 7 (2 * 10 ^ 14)) [9; 8] "cid2" 12 s1
    (post (env_of 7 (2 * 10 ^ 14)) (AddMultipleCoursesToCertificate [9; 8] "cid2" 12) s1).
Proof.
  apply (add_multiple_courses_effects [9; 8] "cid2" 12 (env_of 7 (2 * 10 ^ 14)) s1);
    vm_compute; reflexivity.
Defined.

(** From a reachable state, a successful call other than
    mintOrUpdateCertificate and addMultipleCoursesToCertificate creates no
    certificate and changes no owner, course list, course count, course index
    or balance, and never makes a revoked certificate valid again. *)
Lemma other_calls_keep_certificates c env s s' :
  reachable s ->
  (forall courseId rn cid h br, c <> MintOrUpdateCertificate courseId rn cid h br) ->
  (forall courseIds cid h, c <> AddMultipleCoursesToCertificate courseIds cid h) ->
  dispatch c env s = Ok tt s' -> Quiet s s'.
Proof.
  intros HR N1 N2 Hd. destruct (reachable_inv s HR) as [HW HE].
  pose proof (step_quiet c env s HW HE N1 N2) as Hw. unfold wp in Hw. rewrite Hd in Hw. exact Hw.
Qed.

Lemma other_calls_keep_certificates_witness :
  Quiet s1 (post (env_of 1 0) (RevokeCertificate 1 "fraud") s1).
Proof.
  apply (other_calls_keep_certificates (RevokeCertificate 1 "fraud") (env_of 1 0) s1).
  - apply reachable_s1.
  - intros; discriminate.
  - intros; discriminate.
  - vm_compute. reflexivity.
Defined.












Lemma step_owner c env s :
  Wf s -> entered s = false ->
  wp (dispatch c) (fun _ s' => owner_ (cfg s') = owner_ (cfg s) \/ msg_sender env = owner_ (cfg s)) env s.
Proof.
  intros HW HE. destruct c; cbn [dispatch];
    try (unfold wp; match goal with
         | |- context [safeTransferFrom ?f ?t ?i ?v env s] =>
             destruct (safeTransferFrom_reverts f t i v env s) as [? ->]; exact I
         | |- context [safeBatchTransferFrom ?f ?t ?i ?v env s] =>
             destruct (safeBatchTransferFrom_reverts f t i v env s) as [? ->]; exact I
         end).
  1: { destruct (Z.eq_dec (userCert s (msg_sender env)) 0) as [Hu|Hu].
    - eapply wp_conseq; [apply mint_first_wp; assumption|].
      intros ? s' H. left. unfold MintEffects in H. destruct H as (_ & _ & _ & _ & _ & _ & _ & _ & _ & _ & _ & Hc & _).
      rewrite Hc. reflexivity.
    - eapply wp_conseq; [apply append_course_wp; assumption|].
      intros ? s' H. left. unfold AppendEffects in H.
      destruct H as (_ & _ & _ & _ & _ & _ & _ & _ & _ & _ & _ & _ & _ & _ & _ & _ & Hc & _).
      rewrite Hc. reflexivity. }
  1: { unfold updateCertificate. wp_go; norm_hyps; try congruence; autorewrite with st in *.
       left. st_simpl. reflexivity. }
  1: { eapply wp_conseq; [apply add_multiple_wp; assumption|].
       intros ? s' H. left. unfold BatchEffects in H.
       destruct H as (_ & _ & _ & _ & _ & _ & _ & _ & _ & _ & _ & _ & _ & _ & _ & _ & Hc & _).
       rewrite Hc. reflexivity. }
  all: unfold setDefaultCertificateFee, setDefaultCourseAdditionFee, setPlatformWallet,
      setDefaultPlatformName, setCourseCertificatePrice, setTokenURI, updateBaseRoute,
      updateDefaultBaseRoute, updateDefaultMetadataBaseURI, batchUpdateBaseRoute,
      revokeCertificate, pause, unpause, transferOwnership, renounceOwnership, setApprovalForAll.
  all: wp_go; norm_hyps; try congruence.
  all: first [right; congruence | left; reflexivity].
Qed.

Lemma owner_changed_by_owner_helper c env s s' :
  reachable s -> dispatch c env s = Ok tt s' -> owner_ (cfg s') <> owner_ (cfg s) ->
  msg_sender env = owner_ (cfg s).
Proof.
  intros HR Hd Hne. destruct (reachable_inv s HR) as [HW HE].
  pose proof (step_owner c env s HW HE) as Hw. unfold wp in Hw. rewrite Hd in Hw.
  destruct Hw as [H|H]; [congruence|exact H].
Qed.

(** From a reachable state, a successful call that changes the contract
    owner was sent by the current owner. *)
Lemma owner_changed_by_owner c env s s' :
  reachable s -> dispatch c env s = Ok tt s' -> owner_ (cfg s') <> owner_ (cfg s) ->
  msg_sender env = owner_ (cfg s).
Proof. apply owner_changed_by_owner_helper.
Qed.

Lemma owner_changed_by_owner_witness :
  msg_sender (env_of 1 0) = owner_ (cfg s0).
Proof.
  apply (owner_changed_by_owner (TransferOwnership 2) (env_of 1 0) s0
           (post (env_of 1 0) (TransferOwnership 2) s0)).
  - apply reachable_s0.
  - vm_compute. reflexivity.
  - vm_compute. discriminate.
Defined.




(** While the contract is paused, mintOrUpdateCertificate,
    updateCertificate and addMultipleCoursesToCertificate revert with
    EnforcedPause. *)
Lemma paused_blocks_paying_calls courseId rn cid h br tokenId courseIds env s :
  paused_ (cfg s) = true -> entered s = false ->
  dispatch (MintOrUpdateCertificate courseId rn cid h br) env s = Revert EnforcedPause /\
  dispatch (UpdateCertificate tokenId cid h) env s = Revert EnforcedPause /\
  dispatch (AddMultipleCoursesToCertificate courseIds cid h) env s = Revert EnforcedPause.
Proof.
  intros HP HE.
  cbv beta iota zeta delta [dispatch mintOrUpdateCertificate updateCertificate
    addMultipleCoursesToCertificate nonReentrant whenNotPaused mbind M_bind get
    revert_if revert mret M_ret modify set_entered].
  cbn [cfg entered]. rewrite HE, HP. repeat split; reflexivity.
Qed.

Lemma paused_blocks_paying_calls_witness :
  let s2 := post (env_of 1 0) Pause s1 in
  dispatch (MintOrUpdateCertificate 7 "Ann" "cid2" 12 "") (env_of 7 (10 ^ 15)) s2 = Revert EnforcedPause /\
  dispatch (UpdateCertificate 1 "cid2" 12) (env_of 7 (10 ^ 15)) s2 = Revert EnforcedPause /\
  dispatch (AddMultipleCoursesToCertificate [9] "cid2" 12) (env_of 7 (10 ^ 15)) s2 = Revert EnforcedPause.
Proof.
  intros s2. apply paused_blocks_paying_calls; vm_compute; reflexivity.
Defined.

Lemma PriceOK_of s s' :
  cfg s' = cfg s -> courseCertificatePrices s' = courseCertificatePrices s -> PriceOK s -> PriceOK s'.
Proof. unfold PriceOK. intros -> ->. exact (fun h => h). Qed.

Lemma batch_state_proj {A} (p : St -> A) l r ts x :
  (forall t f y, p (update_cert t f y) = p y) ->
  p (batchUpdateBaseRoute_state l r ts x) = p x.
Proof.
  intros Hp. unfold batchUpdateBaseRoute_state. revert x.
  induction l as [|t l IH]; intros x; cbn; [reflexivity|].
  rewrite IH. destruct (_exists x t); [rewrite !Hp|]; reflexivity.
Qed.

Ltac effects_frame s H :=
  decompose [and] H;
  eapply (PriceOK_of s); [eassumption | eassumption | assumption].

Lemma step_price c env s :
  Wf s -> entered s = false -> PriceOK s ->
  wp (dispatch c) (fun _ s' => PriceOK s') env s.
Proof.
  intros HW HE HP. destruct c; cbn [dispatch];
    try (unfold wp; match goal with
         | |- context [safeTransferFrom ?f ?t ?i ?v env s] =>
             destruct (safeTransferFrom_reverts f t i v env s) as [? ->]; exact I
         | |- context [safeBatchTransferFrom ?f ?t ?i ?v env s] =>
             destruct (safeBatchTransferFrom_reverts f t i v env s) as [? ->]; exact I
         end).
  1: { destruct (Z.eq_dec (userCert s (msg_sender env)) 0) as [Hu|Hu].
    - eapply wp_conseq; [apply mint_first_wp; assumption|].
      intros ? s' H. unfold MintEffects in H. effects_frame s H.
    - eapply wp_conseq; [apply append_course_wp; assumption|].
      intros ? s' H. unfold AppendEffects in H. effects_frame s H. }
  1: { eapply wp_conseq; [|intros ? s' H; exact H].
       unfold updateCertificate. wp_go; norm_hyps; try congruence; autorewrite with st in *.
       eapply (PriceOK_of s); [st_simpl; reflexivity | st_simpl; reflexivity | exact HP]. }
  1: { eapply wp_conseq; [apply add_multiple_wp; assumption|].
       intros ? s' H. unfold BatchEffects in H. effects_frame s H. }
  all: unfold setDefaultCertificateFee, setDefaultCourseAdditionFee, setPlatformWallet,
      setDefaultPlatformName, setCourseCertificatePrice, setTokenURI, updateBaseRoute,
      updateDefaultBaseRoute, updateDefaultMetadataBaseURI, batchUpdateBaseRoute,
      revokeCertificate, pause, unpause, transferOwnership, renounceOwnership, setApprovalForAll.
  all: wp_go; norm_hyps; try congruence.
  all: try (eapply (PriceOK_of s); [st_simpl; rewrite ?(batch_state_proj cfg) by reflexivity; reflexivity
                              | st_simpl; rewrite ?(batch_state_proj courseCertificatePrices) by reflexivity; reflexivity
                              | exact HP]).
  all: unfold PriceOK in *; st_simpl;
    cbn [defaultCertificateFee defaultCourseAdditionFee set_defaultCertificateFee
         set_defaultCourseAdditionFee set_owner_ set_paused_ set_platformWallet
         set_defaultPlatformName set_defaultBaseRoute set_defaultMetadataBaseURI] in *;
    decompose [and] HP.
  all: repeat match goal with |- _ /\ _ => split end; try assumption; try lia.
  intros courseId' p Hp. destruct (decide (courseId' = courseId)) as [->|Hne].
  - rewrite lookup_insert_eq in Hp. injection Hp as <-. split; lia.
  - rewrite lookup_insert_ne in Hp by congruence. eauto.
Qed.

Lemma reachable_PriceOK s : reachable s -> PriceOK s.
Proof.
  induction 1 as [deployer cf pt cl pw br pn s H | env c s HR IH].
  - unfold constructor in H.
    repeat match goal with H : context [if ?b then _ else _] |- _ => destruct b end;
      try discriminate.
    injection H as <-. unfold PriceOK. cbn. unfold MAX_CERTIFICATE_PRICE, ether.
    repeat split.
    all: first [apply Z.eqb_neq; reflexivity | apply Z.leb_le; reflexivity | match goal with H : ∅ !! _ = Some _ |- _ => rewrite lookup_empty in H; discriminate end].
  - destruct (reachable_inv s HR) as [HW HE].
    pose proof (step_price c env s HW HE IH) as Hw. unfold wp, post in *.
    destruct (dispatch c env s) as [[] s'|e]; [exact Hw|exact IH].
Qed.

(** In every reachable state, the price getCourseCertificatePrice returns
    is non-zero and at most MAX_CERTIFICATE_PRICE, and so is
    defaultCourseAdditionFee. *)
Lemma certificate_prices_bounded courseId p env s :
  reachable s -> getCourseCertificatePrice courseId env s = Ok p s ->
  p <> 0 /\ p <= MAX_CERTIFICATE_PRICE /\
  defaultCourseAdditionFee (cfg s) <> 0 /\ defaultCourseAdditionFee (cfg s) <= MAX_CERTIFICATE_PRICE.
Proof.
  intros HR. destruct (reachable_PriceOK s HR) as (P1 & P2 & P3 & P4 & P5).
  view. destruct (courseCertificatePrices s !! courseId) as [q|] eqn:Hq; cbn.
  - destruct (0 <? q) eqn:Hpos; intros H; injection H as <-.
    + destruct (P5 courseId q Hq). auto.
    + auto.
  - intros H; injection H as <-. auto.
Qed.

Lemma certificate_prices_bounded_witness :
  let s2 := post (env_of 500 0) (SetCourseCertificatePrice 5 (2 * 10 ^ 15)) s1 in
  (2 * 10 ^ 15) <> 0 /\ 2 * 10 ^ 15 <= MAX_CERTIFICATE_PRICE /\
  defaultCourseAdditionFee (cfg s2) <> 0 /\ defaultCourseAdditionFee (cfg s2) <= MAX_CERTIFICATE_PRICE.
Proof.
  intros s2. apply (certificate_prices_bounded 5 _ (env_of 7 0) s2).
  - apply reachable_step, reachable_s1.
  - vm_compute. reflexivity.
Defined.





Lemma decimal_acc_app a x y :
  decimal_acc a (String.append x y) = decimal_acc (decimal_acc a x) y.
Proof. revert a. induction x as [|c x IH]; intros a; [reflexivity|exact (IH _)]. Qed.

Lemma string_append_cons_r x a y :
  String.append x (String a y) = String.append (String.append x (String a EmptyString)) y.
Proof. induction x as [|c x IH]; [reflexivity|exact (f_equal (String c) IH)]. Qed.

Lemma string_length_append x y :
  String.length (String.append x y) = (String.length x + String.length y)%nat.
Proof. induction x as [|c x IH]; [reflexivity|exact (f_equal S IH)]. Qed.

Lemma string_append_nil x : String.append x "" = x.
Proof. induction x as [|c x IH]; [reflexivity|exact (f_equal (String c) IH)]. Qed.

Lemma digit_value_hex d : 0 <= d < 10 -> digit_value (hex_digit d) = d.
Proof.
  intros Hd.
  assert (d = 0 \/ d = 1 \/ d = 2 \/ d = 3 \/ d = 4 \/ d = 5 \/ d = 6 \/ d = 7 \/ d = 8 \/ d = 9)
    as Hc by lia.
  repeat destruct Hc as [-> | Hc]; [reflexivity ..|]. subst. reflexivity.
Qed.

Lemma toString_loop_spec fuel v buf :
  0 <= v < 10 ^ Z.of_nat fuel ->
  exists pre, toString_loop fuel v buf = String.append pre buf /\ decimal_acc 0 pre = v.
Proof.
  revert v buf. induction fuel as [|fuel IH]; intros v buf Hv.
  - cbn in Hv. exists "". cbn. split; [reflexivity|lia].
  - rewrite Nat2Z.inj_succ, Z.pow_succ_r in Hv by lia.
    cbn [toString_loop].
    assert (Hm : 0 <= v mod 10 < 10) by (apply Z.mod_pos_bound; lia).
    assert (Hdm : v = 10 * (v / 10) + v mod 10) by (apply Z.div_mod; lia).
    destruct (v / 10 =? 0) eqn:Hq.
    + apply Z.eqb_eq in Hq. exists (String (hex_digit (v mod 10)) EmptyString).
      split; [reflexivity|]. cbn. rewrite digit_value_hex by exact Hm. lia.
    + apply Z.eqb_neq in Hq.
      assert (Hv' : 0 <= v / 10 < 10 ^ Z.of_nat fuel).
      { split; [apply Z.div_pos; lia|]. apply Z.div_lt_upper_bound; lia. }
      destruct (IH (v / 10) (String (hex_digit (v mod 10)) buf) Hv') as (pre & E & D).
      exists (String.append pre (String (hex_digit (v mod 10)) EmptyString)). split.
      * rewrite E. apply string_append_cons_r.
      * rewrite decimal_acc_app, D. cbn. rewrite digit_value_hex by exact Hm. lia.
Qed.

Lemma toString_decimal v : 0 <= v <= UINT256_MAX -> decimal_acc 0 (toString v) = v.
Proof.
  intros Hv. unfold toString.
  assert (Hb : 0 <= v < 10 ^ Z.of_nat 78).
  { split; [lia|]. apply Z.le_lt_trans with UINT256_MAX; [lia|]. apply Z.ltb_lt. reflexivity. }
  destruct (toString_loop_spec 78 v "" Hb) as (pre & E & D).
  rewrite E, string_append_nil. exact D.
Qed.

(** Strings.toString is injective on uint256: distinct values have distinct
    decimal strings. *)
Lemma toString_injective v w :
  0 <= v <= UINT256_MAX -> 0 <= w <= UINT256_MAX -> toString v = toString w -> v = w.
Proof.
  intros Hv Hw E. rewrite <- (toString_decimal v Hv), <- (toString_decimal w Hw), E. reflexivity.
Qed.

Lemma toString_injective_witness : 1234 = 1234.
Proof.
  apply toString_injective; [unfold UINT256_MAX; lia | unfold UINT256_MAX; lia | reflexivity].
Defined.

Lemma toHexString_loop_spec n v buf :
  String.length (fst (toHexString_loop n v buf)) = (n + String.length buf)%nat /\
  snd (toHexString_loop n v buf) = Z.shiftr v (4 * Z.of_nat n).
Proof.
  revert v buf. induction n as [|n IH]; intros v buf; cbn [toHexString_loop].
  - cbn. split; [reflexivity|]. rewrite Z.mul_0_r, Z.shiftr_0_r. reflexivity.
  - destruct (IH (Z.shiftr v 4) (String (hex_digit (Z.land v 15)) buf)) as [L S].
    split; [rewrite L; cbn; lia|].
    rewrite S, Z.shiftr_shiftr by lia. f_equal. lia.
Qed.

(** Strings.toHexString(value, length) for a uint256 [length]: when the
    buffer size [2 * length + 2] fits in memory ([<= 2 ^ 64 - 1]), it
    succeeds exactly when value fits in [length] bytes, returning
    [2 + 2 * length] characters, and otherwise reverts with
    StringsInsufficientHexLength.  A larger size that is still a uint256
    panics with 0x41 (allocation), and a size that overflows uint256 panics
    with 0x11. *)
Lemma to_hex_string_spec value length env s :
  0 <= value -> 0 <= length <= UINT256_MAX ->
  (2 * length + 2 <= 2 ^ 64 - 1 ->
     (value < 2 ^ (8 * length) ->
        exists str, toHexString value length env s = Ok str s /\
                    String.length str = (2 + 2 * Z.to_nat length)%nat) /\
     (2 ^ (8 * length) <= value ->
        toHexString value length env s = Revert (StringsInsufficientHexLength value length))) /\
  (2 ^ 64 - 1 < 2 * length + 2 <= UINT256_MAX ->
     toHexString value length env s = Revert (Panic 65)) /\
  (UINT256_MAX < 2 * length + 2 ->
     toHexString value length env s = Revert (Panic 17)).
Proof.
  intros Hv Hl.
  assert (H64 : 2 ^ 64 - 1 < UINT256_MAX) by (apply Z.ltb_lt; reflexivity).
  unfold toHexString, checked_mul, checked_add, revert_if.
  pose proof (toHexString_loop_spec (Z.to_nat (2 * length)) value "") as [L S].
  destruct (toHexString_loop (Z.to_nat (2 * length)) value "") as [digits lv]. cbn [fst snd] in L, S.
  rewrite Z2Nat.id in S by lia. replace (4 * (2 * length)) with (8 * length) in S by lia.
  rewrite Z.shiftr_div_pow2 in S by lia.
  assert (Hp : 0 < 2 ^ (8 * length)) by (apply Z.pow_pos_nonneg; lia).
  cbv beta iota zeta delta [mbind M_bind mret M_ret revert].
  set (M64 := 2 ^ 64 - 1) in *. clearbody M64.
  split; [intros Hs; split; intros Hb | split; intros Hs].
  - rewrite (proj2 (Z.leb_le (2 * length) UINT256_MAX)) by lia.
    rewrite (proj2 (Z.leb_le (2 * length + 2) UINT256_MAX)) by lia.
    rewrite (proj2 (Z.ltb_ge M64 (2 * length + 2))) by lia.
    assert (lv = 0) as -> by (rewrite S; apply Z.div_small; lia).
    cbv beta iota zeta delta [negb Z.eqb].
    eexists; split; [reflexivity|]. rewrite string_length_append, L, Z2Nat.inj_mul by lia. cbn. lia.
  - rewrite (proj2 (Z.leb_le (2 * length) UINT256_MAX)) by lia.
    rewrite (proj2 (Z.leb_le (2 * length + 2) UINT256_MAX)) by lia.
    rewrite (proj2 (Z.ltb_ge M64 (2 * length + 2))) by lia.
    assert (Hlv : lv <> 0).
    { rewrite S. assert (1 <= value / 2 ^ (8 * length)); [|lia].
      apply Z.div_le_lower_bound; lia. }
    apply Z.eqb_neq in Hlv. rewrite Hlv. reflexivity.
  - rewrite (proj2 (Z.leb_le (2 * length) UINT256_MAX)) by lia.
    rewrite (proj2 (Z.leb_le (2 * length + 2) UINT256_MAX)) by lia.
    rewrite (proj2 (Z.ltb_lt M64 (2 * length + 2))) by lia. reflexivity.
  - destruct (Z.leb_spec (2 * length) UINT256_MAX) as [Hm|Hm].
    + rewrite (proj2 (Z.leb_gt (2 * length + 2) UINT256_MAX)) by lia. reflexivity.
    + reflexivity.
Qed.

Lemma to_hex_string_spec_witness :
  (2 * 1 + 2 <= 2 ^ 64 - 1 ->
     (255 < 2 ^ (8 * 1) ->
        exists str, toHexString 255 1 (env_of 1 0) s0 = Ok str s0 /\
                    String.length str = (2 + 2 * Z.to_nat 1)%nat) /\
     (2 ^ (8 * 1) <= 255 ->
        toHexString 255 1 (env_of 1 0) s0 = Revert (StringsInsufficientHexLength 255 1))) /\
  (2 ^ 64 - 1 < 2 * 1 + 2 <= UINT256_MAX ->
     toHexString 255 1 (env_of 1 0) s0 = Revert (Panic 65)) /\
  (UINT256_MAX < 2 * 1 + 2 ->
     toHexString 255 1 (env_of 1 0) s0 = Revert (Panic 17)).
Proof. apply to_hex_string_spec; unfold UINT256_MAX; lia. Defined.

Lemma route_idem r ts c :
  cert_set_lastUpdated ts (cert_set_baseRoute r (cert_set_lastUpdated ts (cert_set_baseRoute r c))) =
  cert_set_lastUpdated ts (cert_set_baseRoute r c).
Proof. destruct c; reflexivity. Qed.

Lemma batch_state_lookup l r ts x t :
  certificates (batchUpdateBaseRoute_state l r ts x) !! t =
  if bool_decide (t ∈ l) && _exists x t
  then Some (cert_set_lastUpdated ts (cert_set_baseRoute r (cert_at x t)))
  else certificates x !! t.
Proof.
  unfold batchUpdateBaseRoute_state. revert x. induction l as [|t0 l IH]; intros x; cbn [fold_left].
  - rewrite bool_decide_eq_false_2 by apply not_elem_of_nil. reflexivity.
  - rewrite IH. set (x' := if _exists x t0 then _ else x).
    assert (Ex : _exists x' t = _exists x t) by (subst x'; destruct (_exists x t0); reflexivity).
    rewrite Ex.
    destruct (decide (t = t0)) as [->|Hne].
    + rewrite (bool_decide_eq_true_2 (t0 ∈ t0 :: l)) by (apply elem_of_cons; left; reflexivity).
      subst x'. destruct (_exists x t0) eqn:E; cbn [andb].
      * unfold update_cert, cert_at. st_simpl. rewrite !lookup_insert_eq. cbn [default from_option id].
        destruct (bool_decide (t0 ∈ l)); cbn [andb]; [rewrite route_idem|]; reflexivity.
      * destruct (bool_decide (t0 ∈ l)); reflexivity.
    + assert (Hin : bool_decide (t ∈ t0 :: l) = bool_decide (t ∈ l)).
      { apply bool_decide_ext. rewrite elem_of_cons. intuition congruence. }
      rewrite Hin.
      assert (Hc : certificates x' !! t = certificates x !! t).
      { subst x'. destruct (_exists x t0); [|reflexivity].
        unfold update_cert. st_simpl. rewrite !lookup_insert_ne by congruence. reflexivity. }
      assert (Ha : cert_at x' t = cert_at x t) by (unfold cert_at; rewrite Hc; reflexivity).
      rewrite Hc, Ha. reflexivity.
Qed.

(** A successful batchUpdateBaseRoute(ids, r) was sent by the owner with a
    non-empty list and 1 to 200 characters; afterwards each listed id that
    exists has base route [r] and the block timestamp as lastUpdated, listed
    ids that do not exist are skipped, and other certificates are unchanged. *)
Lemma batch_update_base_route_effects tokenIds r env s s' :
  dispatch (BatchUpdateBaseRoute tokenIds r) env s = Ok tt s' ->
  msg_sender env = owner_ (cfg s) /\ tokenIds <> [] /\
  (1 <= String.length r <= 200)%nat /\
  forall t, certificates s' !! t =
    if bool_decide (t ∈ tokenIds) && _exists s t
    then Some (cert_set_lastUpdated (block_timestamp env) (cert_set_baseRoute r (cert_at s t)))
    else certificates s !! t.
Proof.
  intros Hd.
  assert (Hw : wp (batchUpdateBaseRoute tokenIds r)
    (fun _ s' => msg_sender env = owner_ (cfg s) /\ tokenIds <> [] /\
       (1 <= String.length r <= 200)%nat /\
       s' = batchUpdateBaseRoute_state tokenIds r (block_timestamp env) s) env s).
  { unfold batchUpdateBaseRoute. wp_go; norm_hyps; try congruence.
    repeat split; try congruence; try lia.
    intros ->. discriminate. }
  unfold wp in Hw. cbn [dispatch] in Hd. rewrite Hd in Hw. destruct Hw as (H1 & H2 & H3 & ->).
  repeat split; try assumption; try lia. intros t. apply batch_state_lookup.
Qed.

Lemma batch_update_base_route_effects_witness :
  let s2 := post (env_of 1 0) (BatchUpdateBaseRoute [1; 4; 1] "https://n") s1 in
  msg_sender (env_of 1 0) = owner_ (cfg s1) /\ [1; 4; 1] <> [] /\
  (1 <= String.length "https://n" <= 200)%nat /\
  forall t, certificates s2 !! t =
    if bool_decide (t ∈ [1; 4; 1]) && _exists s1 t
    then Some (cert_set_lastUpdated (block_timestamp (env_of 1 0)) (cert_set_baseRoute "https://n" (cert_at s1 t)))
    else certificates s1 !! t.
Proof.
  intros s2. apply batch_update_base_route_effects. vm_compute. reflexivity.
Defined.

(** When updateBaseRoute(t, r) succeeds, batchUpdateBaseRoute([t], r)
    succeeds with the same final storage. *)
Lemma single_route_update_is_batch_of_one t r env s s' :
  dispatch (UpdateBaseRoute t r) env s = Ok tt s' ->
  dispatch (BatchUpdateBaseRoute [t] r) env s = Ok tt s'.
Proof.
  cbv beta iota zeta delta [dispatch updateBaseRoute batchUpdateBaseRoute batchUpdateBaseRouteLoop
    mbind M_bind onlyOwner validStringLength ask get revert_if revert mret M_ret modify
    batchUpdateBaseRouteLoop].
  destruct (negb (owner_ (cfg s) =? msg_sender env)); [discriminate|].
  destruct (_ || _); [discriminate|]. cbn [length Nat.eqb].
  destruct (_exists s t); cbn [negb]; [exact (fun h => h)|discriminate].
Qed.

Lemma single_route_update_is_batch_of_one_witness :
  dispatch (BatchUpdateBaseRoute [1] "https://n") (env_of 1 2000) s1 =
    Ok tt (post (env_of 1 2000) (UpdateBaseRoute 1 "https://n") s1).
Proof. apply single_route_update_is_batch_of_one. vm_compute. reflexivity. Defined.

Lemma course_membership_views_agree_witness :
  isCourseInCertificate 1 5 (env_of 3 0) s1 = Ok true s1 <->
  exists l, getCertificateCompletedCourses 1 (env_of 3 0) s1 = Ok l s1 /\ In 5 l.
Proof. apply course_membership_views_agree. apply reachable_s1. Defined.

Lemma certificate_count_matches_courses_witness :
  totalCoursesCompleted (cert_at s1 1) = wrap256 (Z.of_nat (length (completedCourses (cert_at s1 1)))).
Proof.
  apply (certificate_count_matches_courses 1 (cert_at s1 1) (env_of 3 0) s1).
  - apply reachable_s1.
  - vm_compute. reflexivity.
Defined.

Lemma balance_is_record_ownership_witness :
  balanceOf s1 7 1 = if decide (owner_at s1 1 = Some 7) then 1 else 0.
Proof. apply balance_is_record_ownership. apply reachable_s1. Defined.

(** In every reachable state, when getUserCertificateStats(u) reports a
    non-zero token id, getCertificate of that id returns a certificate whose
    recipient is [u], with the reported count, issue and update times, and a
    count equal to the length of its course list. *)
Lemma user_stats_consistent u t total ia lu env s :
  reachable s -> getUserCertificateStats u env s = Ok (t, total, ia, lu) s -> t <> 0 ->
  exists c, getCertificate t env s = Ok c s /\ recipientAddress c = u /\
    total = totalCoursesCompleted c /\ issuedAt c = ia /\ lastUpdated c = lu /\
    total = wrap256 (Z.of_nat (length (completedCourses c))).
Proof.
  intros HR Hs Ht. destruct (reachable_inv s HR) as [HW _].
  destruct (reachable_DataInv s HR) as (_ & I2 & _).
  revert Hs. view. destruct (userCert s u =? 0) eqn:E0; cbn.
  - intros H. injection H as <- _ _ _. congruence.
  - intros H. injection H as <- <- <- <-. apply Z.eqb_neq in E0.
    destruct (Wf_userCert_dom s u HW E0) as [c Hc].
    assert (Ho : owner_at s (userCert s u) = Some u).
    { destruct HW as (_ & _ & W3 & _). apply W3. unfold userCert in *.
      destruct (userCertificates s !! u); cbn in *; [reflexivity|congruence]. }
    unfold owner_at in Ho. rewrite Hc in Ho. cbn in Ho. injection Ho as Ho.
    assert (E : _exists s (userCert s u) = true) by (apply (Wf_exists_iff s _ HW); eauto).
    rewrite E. cbn. rewrite (cert_at_Some s _ c Hc). exists c. repeat split; auto.
    apply (I2 _ c Hc).
Qed.

Lemma user_stats_consistent_witness :
  exists c, getCertificate 1 (env_of 3 0) s1 = Ok c s1 /\ recipientAddress c = 7 /\
    1 = totalCoursesCompleted c /\ issuedAt c = 1000 /\ lastUpdated c = 1000 /\
    1 = wrap256 (Z.of_nat (length (completedCourses c))).
Proof.
  apply (user_stats_consistent 7 1 1 1000 1000 (env_of 3 0) s1).
  - apply reachable_s1.
  - vm_compute. reflexivity.
  - discriminate.
Defined.
